(** * Ultrafiltration simulation: the simulation engine of [UltraFiltrationSim]

    A shallow embedding of the time-stepped particle engine (the frame
    callback [step], the derived [flux], [handleBackwash],
    [handleResetSystem] and [createParticles]) together with the properties
    stated about it.

    Numbers.  The source computes on JavaScript numbers.  They are modelled
    here as exact rationals ([Q]): every arithmetic expression is kept in the
    shape the source gives it, and rounding of the machine arithmetic is left
    out.  Numeric results are compared with [==] ([Qeq]) unless the two
    sides are the same term.

    Randomness.  [Math.random()] is modelled as reading the head of a stream
    of draws that is threaded through the code in evaluation order.

    Geometry.  [VESSEL_X], [VESSEL_Y], [VESSEL_W], [VESSEL_H] and
    [MEMBRANE_X] are imported by the source from a constants module; they are
    parameters of the development. *)

From Stdlib Require Import QArith Qminmax Qround Qabs Lqa.
From Stdlib Require Import String.
From Stdlib Require Import ZArith Lia List Bool.
Import ListNotations.

Local Open Scope Q_scope.

(** ** Comparisons and [clamp] *)

Definition Qltb (a b : Q) : bool := negb (Qle_bool b a).
Definition Qgeb (a b : Q) : bool := Qle_bool b a.
Definition Qgtb (a b : Q) : bool := negb (Qle_bool a b).

(** [Math.max(min, Math.min(max, v))] *)
Definition clamp (v lo hi : Q) : Q := Qmax lo (Qmin hi v).

(** ** The random source *)

Definition RandomSource := nat -> Q.

(** Every draw of [Math.random()] lies in [0, 1). *)
Definition valid_source (s : RandomSource) : Prop :=
  forall n, 0 <= s n /\ s n < 1.

Definition Rand (A : Type) : Type := RandomSource -> A * RandomSource.

Definition ret {A} (a : A) : Rand A := fun s => (a, s).

Definition bind {A B} (m : Rand A) (k : A -> Rand B) : Rand B :=
  fun s => let (a, s') := m s in k a s'.

Notation "x <- m ;; k" := (bind m (fun x => k))
  (at level 61, m at next level, right associativity).

Definition Math_random : Rand Q :=
  fun s => (s 0%nat, fun n => s (S n)).

(** [prev.map(f)] where [f] draws random numbers: elements are visited from
    left to right. *)
Fixpoint mapM {A B} (f : A -> Rand B) (l : list A) : Rand (list B) :=
  match l with
  | [] => ret []
  | a :: l' => b <- f a ;; bs <- mapM f l' ;; ret (b :: bs)
  end.

(** ** Data model *)

Inductive ParticleRegion := feed | retentate | permeate.

Definition region_eqb (a b : ParticleRegion) : bool :=
  match a, b with
  | feed, feed | retentate, retentate | permeate, permeate => true
  | _, _ => false
  end.

Record Particle := mkParticle {
  id : nat;
  x : Q;
  y : Q;
  size : Q;
  vx : Q;
  vy : Q;
  region : ParticleRegion
}.

(** The five controls held in component state. *)
Record Params := mkParams {
  pressure : Q;
  poreSize : Q;
  feedConcentration : Q;
  meanSoluteSize : Q;
  stirRate : Q
}.

Record SimulationState := mkState {
  params : Params;
  isRunning : bool;
  particles : list Particle;
  time : Q;
  membraneHealth : Q
}.

(** Field-wise equality of particles up to [==] on numbers. *)
Definition Particle_eqv (p q : Particle) : Prop :=
  id p = id q /\ x p == x q /\ y p == y q /\ size p == size q /\
  vx p == vx q /\ vy p == vy q /\ region p = region q.

Definition State_eqv (s t : SimulationState) : Prop :=
  Forall2 Particle_eqv (particles s) (particles t) /\
  time s == time t /\ membraneHealth s == membraneHealth t.

Section Engine.

(** Geometry constants of [@/lib/constants]. *)
Variables VESSEL_X VESSEL_Y VESSEL_W VESSEL_H MEMBRANE_X : Q.

(** ** [createParticles] *)

(** [Math.round]: the nearest integer, halves rounded up. *)
Definition Math_round (q : Q) : Z := Qfloor (q + (1 # 2)).

Definition createParticle (meanSize : Q) (i : nat) : Rand Particle :=
  let sizeSpread := meanSize * (6 # 10) in
  r1 <- Math_random ;;
  let size0 := meanSize + (r1 - (1 # 2)) * sizeSpread in
  let size1 := clamp size0 4 20 in
  r2 <- Math_random ;;
  r3 <- Math_random ;;
  ret {| id := i;
         x := VESSEL_X + 20 + r2 * (MEMBRANE_X - VESSEL_X - 80);
         y := VESSEL_Y + 30 + r3 * (VESSEL_H - 80);
         size := size1;
         vx := 0;
         vy := 0;
         region := feed |}.

Definition createParticles (concentrationValue meanSize : Q)
  : Rand (list Particle) :=
  let normalized := clamp ((concentrationValue - 100) / (1500 - 100)) 0 1 in
  let particleNumber := Math_round (20 + normalized * 130) in
  mapM (createParticle meanSize) (seq 0 (Z.to_nat particleNumber)).

(** ** The frame callback [step] *)

(** Fouling model: the updater passed to [setMembraneHealth]. *)
Definition step_health (pressure feedConcentration dt h : Q) : Q :=
  let foulingFromPressure := pressure / 2200 in
  let foulingFromConc := feedConcentration / 9000 in
  let decay := (foulingFromPressure + foulingFromConc) * dt in
  let next := clamp (h - decay) 0 100 in
  next.

Definition topLimit : Q := VESSEL_Y + 20.
Definition bottomLimit : Q := VESSEL_Y + VESSEL_H - 20.
Definition leftLimit : Q := VESSEL_X + 10.
Definition rightLimit : Q := VESSEL_X + VESSEL_W - 10.
(** The [rightLimit] local to the permeate branch. *)
Definition permeateRightLimit : Q := VESSEL_X + VESSEL_W - 20.

(** The mutable locals [x, y, vx, vy, region] of the map callback. *)
Record Locals := mkLocals {
  lx : Q;
  ly : Q;
  lvx : Q;
  lvy : Q;
  lregion : ParticleRegion
}.

(** Random vertical mixing, then "Keep inside vertical limits of vessel". *)
Definition vertical_mix (stirRate : Q) (y0 : Q) : Rand Q :=
  let mixStrength := stirRate / 140 in
  r <- Math_random ;;
  let y1 := y0 + (r - (1 # 2)) * mixStrength * 12 in
  let y2 := if Qltb y1 topLimit then topLimit else y1 in
  let y3 := if Qgtb y2 bottomLimit then bottomLimit else y2 in
  ret y3.

(** The horizontal random-walk increment of a retentate particle. *)
Definition retentate_dx (r dt : Q) : Q := (r - (3 # 10)) * dt * 25.

(** The [if (region === "feed") ... else if ... else if ...] chain. *)
Definition region_update (pr : Params) (dt : Q) (sz : Q) (l : Locals)
  : Rand Locals :=
  match lregion l with
  | feed =>
      let pressureForce := pressure pr / 70 in
      let vx1 := lvx l + ((1 # 2) + pressureForce) * dt in
      let x1 := lx l + vx1 in
      r <- Math_random ;;
      let x2 := x1 + (r - (1 # 2)) * dt * 8 in
      if Qgeb x2 (MEMBRANE_X - 8) then
        if Qltb sz (poreSize pr) then
          ret (mkLocals (MEMBRANE_X + 16) (ly l) (20 * pressureForce) (lvy l)
                        permeate)
        else
          ret (mkLocals (MEMBRANE_X - 10) (ly l) (- vx1 * (3 # 10)) (lvy l)
                        retentate)
      else
        ret (mkLocals x2 (ly l) vx1 (lvy l) feed)
  | retentate =>
      r1 <- Math_random ;;
      let x1 := lx l + retentate_dx r1 dt in
      r2 <- Math_random ;;
      let y1 := ly l + (r2 - (1 # 2)) * dt * 16 in
      let x2 := clamp x1 (VESSEL_X + 20) (MEMBRANE_X - 12) in
      ret (mkLocals x2 y1 (lvx l) (lvy l) retentate)
  | permeate =>
      let pressureForce := pressure pr / 80 in
      let vx1 := lvx l + ((4 # 10) + pressureForce) * dt in
      let vy1 := lvy l + (15 # 100) * dt in
      let x1 := lx l + vx1 * dt * 12 in
      let y1 := ly l + vy1 * dt * 10 in
      if Qgtb x1 permeateRightLimit then
        r1 <- Math_random ;;
        r2 <- Math_random ;;
        ret (mkLocals (VESSEL_X + 20 + r1 * 40)
                      (VESSEL_Y + 30 + r2 * (VESSEL_H - 80)) 0 0 feed)
      else
        ret (mkLocals x1 y1 vx1 vy1 permeate)
  end.

(** "Hard bounds inside vessel". *)
Definition hard_bounds (x0 : Q) : Q :=
  let x1 := if Qltb x0 leftLimit then leftLimit else x0 in
  if Qgtb x1 rightLimit then rightLimit else x1.

(** The callback of [prev.map] inside [setParticles]. *)
Definition step_particle (pr : Params) (dt : Q) (p : Particle)
  : Rand Particle :=
  y1 <- vertical_mix (stirRate pr) (y p) ;;
  l <- region_update pr dt (size p)
         (mkLocals (x p) y1 (vx p) (vy p) (region p)) ;;
  ret {| id := id p;
         x := hard_bounds (lx l);
         y := ly l;
         size := size p;
         vx := lvx l;
         vy := lvy l;
         region := lregion l |}.

(** One frame with time delta [dt]: health, population and elapsed time. *)
Definition step (dt : Q) (st : SimulationState) : Rand SimulationState :=
  let pr := params st in
  ps <- mapM (step_particle pr dt) (particles st) ;;
  ret {| params := pr;
         isRunning := isRunning st;
         particles := ps;
         time := time st + dt;
         membraneHealth :=
           step_health (pressure pr) (feedConcentration pr) dt
                       (membraneHealth st) |}.

(** ** Derived metric: [flux] *)

(** [Number(v.toFixed(2))]: the nearest multiple of 1/100, computed on the
    absolute value with the sign put back.  On an exact tie of the rational
    value this model takes the larger magnitude; the source rounds the
    double that stands for the value, which on such a tie may lie on either
    side, so the direction of a tie is not a fact about the source and no
    statement about the source below rests on it. *)
Definition toFixed2 (v : Q) : Q :=
  let n := Qfloor (Qabs v * 100 + (1 # 2)) in
  if Qltb v 0 then - (inject_Z n / 100) else inject_Z n / 100.

Definition permeateCount (ps : list Particle) : nat :=
  length (filter (fun p => region_eqb (region p) permeate) ps).

Definition baseFlux (st : SimulationState) : Q :=
  (inject_Z (Z.of_nat (permeateCount (particles st)))
   * (pressure (params st) / 50)) / (1 + time st).

(** The argument of [toFixed]. *)
Definition rawFlux (st : SimulationState) : Q :=
  baseFlux st * ((4 # 10) + membraneHealth st / 100).

Definition flux (st : SimulationState) : Q := toFixed2 (rawFlux st).

(** ** Cleaning and reset actions *)

Definition backwash_particle (p : Particle) : Particle :=
  if region_eqb (region p) retentate then
    {| id := id p; x := x p - 40; y := y p; size := size p;
       vx := vx p; vy := vy p; region := feed |}
  else p.

Definition handleBackwash (st : SimulationState) : SimulationState :=
  {| params := params st;
     isRunning := isRunning st;
     particles := map backwash_particle (particles st);
     time := time st;
     membraneHealth := clamp (membraneHealth st + 25) 0 100 |}.

(** The effect on [feedConcentration, meanSoluteSize, poreSize]: a fresh
    population and [time] back to 0. *)
Definition regenerate (st : SimulationState) : Rand SimulationState :=
  ps <- createParticles (feedConcentration (params st))
                        (meanSoluteSize (params st)) ;;
  ret {| params := params st;
         isRunning := isRunning st;
         particles := ps;
         time := 0;
         membraneHealth := membraneHealth st |}.

Definition handleResetSystem (st : SimulationState) : Rand SimulationState :=
  ps <- createParticles (feedConcentration (params st))
                        (meanSoluteSize (params st)) ;;
  ret {| params := params st;
         isRunning := isRunning st;
         particles := ps;
         time := 0;
         membraneHealth := 100 |}.

(** ** The component as a state machine *)

Inductive Action :=
| Frame (dt : Q)
| SetPressure (v : Q)
| SetPoreSize (v : Q)
| SetMeanSoluteSize (v : Q)
| SetFeedConcentration (v : Q)
| SetStirRate (v : Q)
| ToggleRunning
| ResetSystem
| Backwash.

Definition with_params (st : SimulationState) (pr : Params)
  : SimulationState :=
  {| params := pr; isRunning := isRunning st; particles := particles st;
     time := time st; membraneHealth := membraneHealth st |}.

(** A setter of one of the three watched controls re-runs the regeneration
    effect when the value changes. *)
Definition set_watched (old v : Q) (st' : SimulationState)
  : Rand SimulationState :=
  if Qeq_bool old v then ret st' else regenerate st'.

(** Frames are delivered by the host loop only while [isRunning]. *)
Definition dispatch (a : Action) (st : SimulationState)
  : Rand SimulationState :=
  let pr := params st in
  match a with
  | Frame dt => if isRunning st then step dt st else ret st
  | SetPressure v =>
      ret (with_params st
             (mkParams v (poreSize pr) (feedConcentration pr)
                       (meanSoluteSize pr) (stirRate pr)))
  | SetPoreSize v =>
      set_watched (poreSize pr) v
        (with_params st
           (mkParams (pressure pr) v (feedConcentration pr)
                     (meanSoluteSize pr) (stirRate pr)))
  | SetMeanSoluteSize v =>
      set_watched (meanSoluteSize pr) v
        (with_params st
           (mkParams (pressure pr) (poreSize pr) (feedConcentration pr)
                     v (stirRate pr)))
  | SetFeedConcentration v =>
      set_watched (feedConcentration pr) v
        (with_params st
           (mkParams (pressure pr) (poreSize pr) v
                     (meanSoluteSize pr) (stirRate pr)))
  | SetStirRate v =>
      ret (with_params st
             (mkParams (pressure pr) (poreSize pr) (feedConcentration pr)
                       (meanSoluteSize pr) v))
  | ToggleRunning =>
      ret {| params := pr; isRunning := negb (isRunning st);
             particles := particles st; time := time st;
             membraneHealth := membraneHealth st |}
  | ResetSystem => handleResetSystem st
  | Backwash => ret (handleBackwash st)
  end.

Definition regenerating (a : Action) : bool :=
  match a with
  | SetPoreSize _ | SetMeanSoluteSize _ | SetFeedConcentration _
  | ResetSystem => true
  | _ => false
  end.

(** ** Reference formulation of the flux *)

(** Number of particles whose region is [permeate], by recursion on the
    population. *)
Fixpoint count_permeate (ps : list Particle) : Z :=
  match ps with
  | [] => 0%Z
  | p :: ps' =>
      match region p with
      | permeate => (1 + count_permeate ps')%Z
      | _ => count_permeate ps'
      end
  end.

(** (permeateCount x (pressure / 50) / (1 + elapsedTime))
    x (0.4 + membraneHealth / 100), before rounding. *)
Definition flux_formula (count : Z) (pressure elapsedTime health : Q) : Q :=
  (inject_Z count * (pressure / 50) / (1 + elapsedTime))
  * ((4 # 10) + health / 100).

(** [r] is [v] rounded to two decimal places: a multiple of 1/100 at
    distance at most 1/200 from [v]. *)
Definition rounded_2dp (r v : Q) : Prop :=
  (exists n : Z, r == inject_Z n / 100) /\ Qabs (r - v) <= 1 # 200.

(** ** Relations used in the statements *)

(** What backwash does to one particle. *)
Definition backwashed (p p' : Particle) : Prop :=
  match region p with
  | retentate =>
      region p' = feed /\ x p' = x p - 40 /\ id p' = id p /\ y p' = y p /\
      size p' = size p /\ vx p' = vx p /\ vy p' = vy p
  | _ => p' = p
  end.

(** The state with its membrane health replaced. *)
Definition set_health (st : SimulationState) (h : Q) : SimulationState :=
  {| params := params st; isRunning := isRunning st;
     particles := particles st; time := time st; membraneHealth := h |}.

(** A particle that a zero-length step has no reason to move: inside the
    vertical limits and the hard bounds, and by region: a feed particle at
    rest short of the membrane, a retentate particle inside its strip, a
    permeate particle short of its right-side limit. *)
Definition at_rest (p : Particle) : Prop :=
  topLimit <= y p /\ y p <= bottomLimit /\
  leftLimit <= x p /\ x p <= rightLimit /\
  match region p with
  | feed => vx p == 0 /\ x p < MEMBRANE_X - 8
  | retentate => VESSEL_X + 20 <= x p /\ x p <= MEMBRANE_X - 12
  | permeate => x p <= permeateRightLimit
  end.

(** ** Mean of an increment over a uniform draw *)

Fixpoint sum_upto (n : nat) (f : nat -> Q) : Q :=
  match n with
  | O => 0
  | S k => sum_upto k f + f k
  end.

(** Mean of [f] over a draw that is uniform on [0, 1), taken on [n] equally
    likely cells through their midpoints (2j + 1) / (2n).  For the affine
    increments of the engine it does not depend on [n]. *)
Definition midpoint_mean (n : nat) (f : Q -> Q) : Q :=
  sum_upto n (fun j =>
    f ((2 * inject_Z (Z.of_nat j) + 1) / (2 * inject_Z (Z.of_nat n))))
  / inject_Z (Z.of_nat n).

(** ** Population measures and invariants *)

(** Number of particles in region [r]. *)
Definition count_region (r : ParticleRegion) (ps : list Particle) : nat :=
  length (filter (fun p => region_eqb (region p) r) ps).

(** The region changes that the branches of the map callback can make:
    a feed particle may stay, pass or be retained; a retentate particle
    stays; a permeate particle stays or is recycled to feed. *)
Definition step_transition (a b : ParticleRegion) : bool :=
  match a, b with
  | feed, _ => true
  | retentate, retentate => true
  | permeate, permeate => true
  | permeate, feed => true
  | _, _ => false
  end.

(** Membrane and outlet lie inside the vessel with room for the recycling
    strip [VESSEL_X + 20, VESSEL_X + 60) on the feed side. *)
Definition geometry_ok : Prop :=
  VESSEL_X + 60 <= MEMBRANE_X - 8 /\ MEMBRANE_X + 16 <= permeateRightLimit.

(** A particle is on the side of the membrane that its region names. *)
Definition side_ok (p : Particle) : Prop :=
  match region p with
  | feed => x p < MEMBRANE_X - 8
  | retentate => VESSEL_X + 20 <= x p /\ x p <= MEMBRANE_X - 10
  | permeate =>
      MEMBRANE_X + 16 <= x p /\ x p <= permeateRightLimit /\ 0 <= vx p
  end.

(** The state with its elapsed time replaced. *)
Definition set_time (st : SimulationState) (t : Q) : SimulationState :=
  {| params := params st; isRunning := isRunning st;
     particles := particles st; time := t;
     membraneHealth := membraneHealth st |}.


(** The actions that can change the membrane health. *)
Definition touches_health (a : Action) : bool :=
  match a with
  | Frame _ | ResetSystem | Backwash => true
  | _ => false
  end.

(** ** The animation loop

    [dispatch] hands a frame the current controls.  The frame callback of
    the source is a closure made by the effect with dependencies
    [isRunning, pressure, stirRate, feedConcentration]: it reads the
    [poreSize] of the render in which that effect last ran, and it measures
    [dt] against [lastTimeRef].  [Loop] adds these two to the state. *)

Record Loop := mkLoop {
  sim : SimulationState;
  (** the [poreSize] the running callback closed over *)
  capturedPoreSize : Q;
  (** [lastTimeRef.current], [None] for [null] *)
  lastTimeRef : option Q
}.

(** [if (!lastTimeRef.current) lastTimeRef.current = timestamp]: [null] and
    0 are both falsy. *)
Definition last_or (l : option Q) (timestamp : Q) : Q :=
  match l with
  | Some t => if Qeq_bool t 0 then timestamp else t
  | None => timestamp
  end.

(** The controls as the running callback sees them. *)
Definition captured_params (l : Loop) : Params :=
  let pr := params (sim l) in
  mkParams (pressure pr) (capturedPoreSize l) (feedConcentration pr)
           (meanSoluteSize pr) (stirRate pr).

(** [step(timestamp)], the callback given to [requestAnimationFrame]. *)
Definition animation_frame (timestamp : Q) (l : Loop) : Rand Loop :=
  let last := last_or (lastTimeRef l) timestamp in
  let dt := (timestamp - last) / 1000 in
  st' <- step dt (with_params (sim l) (captured_params l)) ;;
  ret {| sim := with_params st' (params (sim l));
         capturedPoreSize := capturedPoreSize l;
         lastTimeRef := Some timestamp |}.

(** Whether a dependency of the loop effect differs between two renders. *)
Definition loop_deps_changed (st st' : SimulationState) : bool :=
  negb (Bool.eqb (isRunning st) (isRunning st'))
  || negb (Qeq_bool (pressure (params st)) (pressure (params st')))
  || negb (Qeq_bool (stirRate (params st)) (stirRate (params st')))
  || negb (Qeq_bool (feedConcentration (params st))
                    (feedConcentration (params st'))).

(** A user action on the component: the state changes as in [dispatch];
    when a dependency of the loop effect changed, its cleanup clears
    [lastTimeRef] and the effect makes a new callback, which closes over the
    current [poreSize].  Frames reach the loop through [animation_frame]. *)
Definition user_action (a : Action) (l : Loop) : Rand Loop :=
  match a with
  | Frame _ => ret l
  | _ =>
      st' <- dispatch a (sim l) ;;
      if loop_deps_changed (sim l) st' then
        ret {| sim := st';
               capturedPoreSize := poreSize (params st');
               lastTimeRef := None |}
      else
        ret {| sim := st';
               capturedPoreSize := capturedPoreSize l;
               lastTimeRef := lastTimeRef l |}
  end.

(** ** Membrane drawing *)



(** ** Keyboard controls *)

Record KeyboardEvent := mkKeyboardEvent {
  (** [e.target?.tagName], [None] when there is no target *)
  targetTag : option string;
  code : string;
  key : string
}.

(** What [handleKeyDown] leaves behind: the run flag, the active control,
    whether [preventDefault] was called and the control that got focus. *)
Record KeyOutcome := mkKeyOutcome {
  outRunning : bool;
  outIndex : nat;
  defaultPrevented : bool;
  focused : option nat
}.

Definition isTyping (e : KeyboardEvent) : bool :=
  let tag := match targetTag e with Some t => t | None => ""%string end in
  (tag =? "INPUT")%string || (tag =? "TEXTAREA")%string.

(** [controlRefs] holds, per slider, whether its input element is mounted
    (not [null]). *)
Definition handleKeyDown (controlRefs : list bool) (e : KeyboardEvent)
           (running : bool) (prev : nat) : KeyOutcome :=
  if isTyping e then mkKeyOutcome running prev false None
  else if (code e =? "Space")%string then
    mkKeyOutcome (negb running) prev true None
  else if (key e =? "Tab")%string then
    let total := length controlRefs in
    if Nat.eqb total 0 then mkKeyOutcome running prev true None
    else
      let next := ((prev + 1) mod total)%nat in
      mkKeyOutcome running next true
                   (if nth next controlRefs false then Some next else None)
  else mkKeyOutcome running prev false None.


(** The arguments an action can sensibly carry: a frame's time delta and
    the pressure are not negative. *)
Definition action_ok (a : Action) : Prop :=
  match a with
  | Frame dt => 0 <= dt
  | SetPressure v => 0 <= v
  | _ => True
  end.


(** ** Sample inputs

    A geometry with the membrane inside the vessel, the initial control
    values of the component, and two constant random sources. *)

Definition sample_VESSEL_X : Q := 60.
Definition sample_VESSEL_Y : Q := 50.
Definition sample_VESSEL_W : Q := 560.
Definition sample_VESSEL_H : Q := 300.
Definition sample_MEMBRANE_X : Q := 340.

Definition sample_params : Params := mkParams 40 10 300 10 40.

Definition zero_source : RandomSource := fun _ => 0.
Definition half_source : RandomSource := fun _ => 1 # 2.

(** The same controls with the stirrer off. *)
Definition still_params : Params := mkParams 40 10 300 10 0.

Definition sample_state (ps : list Particle) (t h : Q) : SimulationState :=
  mkState sample_params true ps t h.

Definition still_state (ps : list Particle) (t h : Q) : SimulationState :=
  mkState still_params true ps t h.

(** A small feed particle about to reach the membrane. *)
Definition feed_near_membrane : Particle := mkParticle 0 331 100 8 2 0 feed.
(** A feed particle at rest in the bulk. *)
Definition feed_idle : Particle := mkParticle 0 200 100 8 0 0 feed.
(** A retentate particle on the upper vertical limit. *)
Definition retentate_at_top : Particle :=
  mkParticle 0 200 70 12 0 0 retentate.
(** A retentate particle at the lower end of its strip, VESSEL_X + 20. *)
Definition retentate_at_wall : Particle :=
  mkParticle 0 80 100 12 0 0 retentate.
(** A permeate particle at its right-side limit, still moving right. *)
Definition permeate_at_exit : Particle :=
  mkParticle 0 600 100 8 30 0 permeate.
Definition permeate_one : Particle := mkParticle 1 400 100 8 0 0 permeate.

(** A loop in sync with the controls (pore size 10, mean solute size 8),
    whose last frame came at 1000 ms. *)
Definition sample_loop : Loop :=
  mkLoop (mkState (mkParams 40 10 300 8 40) true [] 0 100) 10 (Some 1000).

(** A loop whose effect has just run. *)
Definition fresh_loop : Loop :=
  mkLoop (sample_state [feed_idle] 0 100) 10 None.

(** Tab pressed while the page body has focus, and the five sliders. *)
Definition tab_on_body : KeyboardEvent :=
  mkKeyboardEvent (Some "BODY"%string) "Tab"%string "Tab"%string.
Definition five_sliders : list bool := [true; true; true; true; true].


(** ** Helper lemmas *)

Lemma Qltb_true (a b : Q) : Qltb a b = true <-> a < b.
Proof.
  unfold Qltb. rewrite negb_true_iff, <- not_true_iff_false, Qle_bool_iff.
  split; intro H; [apply Qnot_le_lt | apply Qlt_not_le]; exact H.
Qed.

Lemma Qltb_false (a b : Q) : Qltb a b = false <-> b <= a.
Proof.
  unfold Qltb. rewrite negb_false_iff. apply Qle_bool_iff.
Qed.

Lemma Qgtb_true (a b : Q) : Qgtb a b = true <-> b < a.
Proof. apply Qltb_true. Qed.

Lemma Qgtb_false (a b : Q) : Qgtb a b = false <-> a <= b.
Proof. apply Qltb_false. Qed.

Lemma Qgeb_true (a b : Q) : Qgeb a b = true <-> b <= a.
Proof. apply Qle_bool_iff. Qed.

Lemma Qgeb_false (a b : Q) : Qgeb a b = false <-> a < b.
Proof.
  unfold Qgeb. rewrite <- not_true_iff_false, Qle_bool_iff.
  split; intro H; [apply Qnot_le_lt | apply Qlt_not_le]; exact H.
Qed.

(** Division by a numeral becomes multiplication by its inverse, which
    linear arithmetic understands. *)
Ltac qdiv := unfold Qdiv in *; cbn [Qinv Qnum Qden] in *.

(** Case analysis on a [clamp]: names the two extrema and leaves linear
    facts about them. *)
Ltac clamp_cases :=
  unfold clamp in *;
  repeat match goal with
  | |- context [Qmin ?a ?b] =>
      let m := fresh "m" in
      destruct (Q.min_spec a b) as [[? ?] | [? ?]];
      set (m := Qmin a b) in *; clearbody m
  end;
  repeat match goal with
  | |- context [Qmax ?a ?b] =>
      let m := fresh "m" in
      destruct (Q.max_spec a b) as [[? ?] | [? ?]];
      set (m := Qmax a b) in *; clearbody m
  end.

Lemma clamp_bounds (v lo hi : Q) :
  lo <= hi -> lo <= clamp v lo hi /\ clamp v lo hi <= hi.
Proof. intro H. clamp_cases; lra. Qed.

Lemma clamp_inside (v lo hi : Q) :
  lo <= v -> v <= hi -> clamp v lo hi == v.
Proof. intros H1 H2. clamp_cases; lra. Qed.

Lemma mapM_length {A B} (f : A -> Rand B) (l : list A) (s : RandomSource) :
  length (fst (mapM f l s)) = length l.
Proof.
  revert s. induction l as [| a l IH]; intro s; simpl.
  - reflexivity.
  - unfold bind. destruct (f a s) as [b s1].
    specialize (IH s1). destruct (mapM f l s1) as [bs s2].
    simpl in *. now rewrite IH.
Qed.

(** A relation that [f] establishes from every source holds pointwise
    between the input and the output of [mapM f]. *)
Lemma mapM_Forall2 {A B} (f : A -> Rand B) (R : A -> B -> Prop) :
  (forall a s, R a (fst (f a s))) ->
  forall l s, Forall2 R l (fst (mapM f l s)).
Proof.
  intros Hf l. induction l as [| a l IH]; intro s; simpl.
  - constructor.
  - unfold bind. pose proof (Hf a s) as Ha. destruct (f a s) as [b s1].
    specialize (IH s1). destruct (mapM f l s1) as [bs s2].
    simpl in *. constructor; assumption.
Qed.

(** ** Projections of one [step] *)

Lemma step_particles (dt : Q) (st : SimulationState) (s : RandomSource) :
  particles (fst (step dt st s))
  = fst (mapM (step_particle (params st) dt) (particles st) s).
Proof.
  unfold step, bind, ret.
  destruct (mapM (step_particle (params st) dt) (particles st) s).
  reflexivity.
Qed.

Lemma step_time (dt : Q) (st : SimulationState) (s : RandomSource) :
  time (fst (step dt st s)) = time st + dt.
Proof.
  unfold step, bind, ret.
  destruct (mapM (step_particle (params st) dt) (particles st) s).
  reflexivity.
Qed.

Lemma step_membraneHealth (dt : Q) (st : SimulationState) (s : RandomSource) :
  membraneHealth (fst (step dt st s))
  = step_health (pressure (params st)) (feedConcentration (params st)) dt
                (membraneHealth st).
Proof.
  unfold step, bind, ret.
  destruct (mapM (step_particle (params st) dt) (particles st) s).
  reflexivity.
Qed.

Lemma decay_nonneg (p c dt : Q) :
  0 <= p -> 0 <= c -> 0 <= dt -> 0 <= (p / 2200 + c / 9000) * dt.
Proof.
  intros Hp Hc Hdt. apply Qmult_le_0_compat; [| exact Hdt].
  qdiv. lra.
Qed.

(** ** Membrane fouling *)

(** C3: the health written by one step is
    clamp(health - (pressure/2200 + feedConcentration/9000) x dt, 0, 100);
    for health in [0, 100] and non-negative pressure, feedConcentration and
    dt it is at most the old health (and stays in [0, 100]). *)
Theorem step_health_decay (dt : Q) (st : SimulationState) (s : RandomSource) :
  0 <= membraneHealth st -> membraneHealth st <= 100 ->
  0 <= pressure (params st) -> 0 <= feedConcentration (params st) ->
  0 <= dt ->
  let h' := membraneHealth (fst (step dt st s)) in
  h' = clamp (membraneHealth st
              - (pressure (params st) / 2200
                 + feedConcentration (params st) / 9000) * dt) 0 100
  /\ h' <= membraneHealth st
  /\ 0 <= h' /\ h' <= 100.
Proof.
  intros H0 H100 Hp Hc Hdt h'. subst h'.
  rewrite step_membraneHealth. unfold step_health.
  pose proof (decay_nonneg _ _ _ Hp Hc Hdt) as Hd.
  set (d := (pressure (params st) / 2200
             + feedConcentration (params st) / 9000) * dt) in *.
  split; [reflexivity |].
  clearbody d. clamp_cases; lra.
Qed.

(** ** Backwash *)

Lemma backwash_particle_retentate (p : Particle) :
  region p = retentate ->
  backwash_particle p
  = mkParticle (id p) (x p - 40) (y p) (size p) (vx p) (vy p) feed.
Proof. intro H. unfold backwash_particle. rewrite H. reflexivity. Qed.

Lemma backwash_particle_other (p : Particle) :
  region p <> retentate -> backwash_particle p = p.
Proof.
  intro H. unfold backwash_particle.
  destruct (region p); try reflexivity. now elim H.
Qed.

(** C8: backwash sets membraneHealth to clamp(membraneHealth + 25, 0, 100),
    turns every retentate particle into a feed particle with x decreased by
    exactly 40 and its other fields unchanged, returns every feed and
    permeate particle unchanged, and leaves elapsedTime unchanged. *)
Theorem handleBackwash_effect (st : SimulationState) :
  membraneHealth (handleBackwash st) = clamp (membraneHealth st + 25) 0 100
  /\ Forall2 backwashed (particles st) (particles (handleBackwash st))
  /\ time (handleBackwash st) = time st.
Proof.
  split; [reflexivity |]. split; [| reflexivity].
  simpl. induction (particles st) as [| p ps IH]; simpl.
  - constructor.
  - constructor; [| exact IH].
    unfold backwashed. destruct (region p) eqn:Hr.
    + apply backwash_particle_other. congruence.
    + rewrite (backwash_particle_retentate p Hr). simpl. repeat split.
    + apply backwash_particle_other. congruence.
Qed.

(** C10: backwash clamps no position: every retentate particle reappears
    with x lowered by exactly 40, so a state holding a retentate particle
    with x < VESSEL_X + 50 is taken to a state holding a particle with
    x < VESSEL_X + 10, left of the hard left bound of the step function. *)
Theorem handleBackwash_leaves_hard_bounds (st : SimulationState) (p : Particle) :
  In p (particles st) -> region p = retentate -> x p < VESSEL_X + 50 ->
  exists p', In p' (particles (handleBackwash st))
             /\ x p' = x p - 40
             /\ x p' < VESSEL_X + 10
             /\ ~ (leftLimit <= x p' /\ x p' <= rightLimit).
Proof.
  intros Hin Hr Hx. exists (backwash_particle p).
  split; [simpl; apply in_map; exact Hin |].
  rewrite (backwash_particle_retentate p Hr). simpl.
  split; [reflexivity |]. unfold leftLimit. split; [lra |].
  intros [Hl _]. lra.
Qed.

(** ** The per-particle callback *)

(** The callback hands on a valid source. *)
Lemma step_particle_valid (pr : Params) (dt : Q) (p : Particle)
      (s : RandomSource) :
  valid_source s -> valid_source (snd (step_particle pr dt p s)).
Proof.
  intro H.
  unfold step_particle, vertical_mix, region_update, bind, ret, Math_random.
  cbn [lregion lx ly lvx lvy].
  destruct (region p); cbn;
    repeat match goal with
    | |- context [if ?b then _ else _] => destruct b; cbn
    end;
    intro n; apply H.
Qed.

Lemma mapM_pointwise {A B} (f : A -> Rand B) :
  (forall a s, valid_source s -> valid_source (snd (f a s))) ->
  forall l s, valid_source s ->
  Forall2 (fun a b => exists s', valid_source s' /\ b = fst (f a s'))
          l (fst (mapM f l s)).
Proof.
  intros Hf l. induction l as [| a l IH]; intros s Hs; simpl.
  - constructor.
  - unfold bind. pose proof (Hf a s Hs) as Hs1.
    assert (Ha : exists s', valid_source s' /\ fst (f a s) = fst (f a s'))
      by (exists s; split; [exact Hs | reflexivity]).
    destruct (f a s) as [b s1]. simpl in Hs1, Ha.
    specialize (IH s1 Hs1). destruct (mapM f l s1) as [bs s2].
    simpl in *. constructor; assumption.
Qed.

(** Every particle of the stepped population is the image of the particle
    at the same index under [step_particle], run on some valid source. *)
Lemma step_pointwise (dt : Q) (st : SimulationState) (s : RandomSource) :
  valid_source s ->
  Forall2 (fun p p' => exists s', valid_source s'
                                  /\ p' = fst (step_particle (params st) dt p s'))
          (particles st) (particles (fst (step dt st s))).
Proof.
  intro Hs. rewrite step_particles.
  apply mapM_pointwise; [| exact Hs].
  intros a s0. apply step_particle_valid.
Qed.

Lemma hard_bounds_inside (v : Q) :
  leftLimit <= v -> v <= rightLimit -> hard_bounds v = v.
Proof.
  intros Hl Hr. unfold hard_bounds.
  apply Qltb_false in Hl. rewrite Hl.
  apply Qgtb_false in Hr. rewrite Hr. reflexivity.
Qed.

Lemma hard_bounds_range (v : Q) :
  leftLimit <= rightLimit ->
  leftLimit <= hard_bounds v /\ hard_bounds v <= rightLimit.
Proof.
  intro H. unfold hard_bounds.
  destruct (Qltb v leftLimit) eqn:E1.
  - destruct (Qgtb leftLimit rightLimit) eqn:E2.
    + apply Qgtb_true in E2. lra.
    + lra.
  - apply Qltb_false in E1.
    destruct (Qgtb v rightLimit) eqn:E2.
    + lra.
    + apply Qgtb_false in E2. lra.
Qed.

(** ** Permeation decision *)


(** ** Horizontal bounds *)

(** After the callback, x lies between the hard bounds (when the vessel is
    wide enough for them to be ordered). *)
Lemma step_particle_x_bounds (pr : Params) (dt : Q) (p : Particle)
      (s : RandomSource) :
  leftLimit <= rightLimit ->
  leftLimit <= x (fst (step_particle pr dt p s))
  /\ x (fst (step_particle pr dt p s)) <= rightLimit.
Proof.
  intro H. unfold step_particle, bind, ret.
  destruct (vertical_mix (stirRate pr) (y p) s) as [y1 s1].
  destruct (region_update pr dt (size p) _ s1) as [l s2].
  cbn. apply hard_bounds_range. exact H.
Qed.

Lemma step_x_bounds (dt : Q) (st : SimulationState) (s : RandomSource) :
  leftLimit <= rightLimit ->
  Forall (fun p' => leftLimit <= x p' /\ x p' <= rightLimit)
         (particles (fst (step dt st s))).
Proof.
  intro H. rewrite step_particles.
  pose proof (mapM_Forall2 (step_particle (params st) dt)
                (fun _ p' => leftLimit <= x p' /\ x p' <= rightLimit)
                (fun a s0 => step_particle_x_bounds (params st) dt a s0 H)
                (particles st) s) as HF.
  induction HF; constructor; assumption.
Qed.

(** A retentate particle stays retentate, confined to
    [VESSEL_X + 20, MEMBRANE_X - 12]. *)
Lemma retentate_confined (pr : Params) (dt : Q) (p : Particle)
      (s : RandomSource) :
  region p = retentate ->
  VESSEL_X + 20 <= MEMBRANE_X - 12 ->
  leftLimit <= VESSEL_X + 20 -> MEMBRANE_X - 12 <= rightLimit ->
  let p' := fst (step_particle pr dt p s) in
  region p' = retentate
  /\ x p' = clamp (x p + retentate_dx (s 1%nat) dt)
                  (VESSEL_X + 20) (MEMBRANE_X - 12)
  /\ VESSEL_X + 20 <= x p' /\ x p' <= MEMBRANE_X - 12.
Proof.
  intros Hr Hord Hl Hrt p'. subst p'.
  unfold step_particle, vertical_mix, region_update, bind, ret, Math_random.
  cbn [lregion lx ly lvx lvy]. rewrite Hr. cbn.
  set (c := clamp _ _ _).
  destruct (clamp_bounds (x p + retentate_dx (s 1%nat) dt)
              (VESSEL_X + 20) (MEMBRANE_X - 12) Hord) as [Hc1 Hc2].
  fold c in Hc1, Hc2.
  rewrite hard_bounds_inside by lra.
  repeat split; assumption.
Qed.

(** ** Population conservation *)

Lemma step_length (dt : Q) (st : SimulationState) (s : RandomSource) :
  length (particles (fst (step dt st s))) = length (particles st).
Proof. rewrite step_particles. apply mapM_length. Qed.

Lemma handleBackwash_length (st : SimulationState) :
  length (particles (handleBackwash st)) = length (particles st).
Proof. simpl. apply length_map. Qed.

Lemma dispatch_length (a : Action) (st : SimulationState) (s : RandomSource) :
  regenerating a = false ->
  length (particles (fst (dispatch a st s))) = length (particles st).
Proof.
  destruct a; simpl; intro H; try discriminate; try reflexivity.
  - destruct (isRunning st); [apply step_length | reflexivity].
  - apply length_map.
Qed.

(** A permeate particle past the right-side limit is recycled. *)
Lemma permeate_recycled (pr : Params) (dt : Q) (p : Particle)
      (s : RandomSource) :
  region p = permeate ->
  let vx1 := vx p + ((4 # 10) + pressure pr / 80) * dt in
  permeateRightLimit < x p + vx1 * dt * 12 ->
  let p' := fst (step_particle pr dt p s) in
  region p' = feed /\ vx p' = 0 /\ vy p' = 0
  /\ x p' = hard_bounds (VESSEL_X + 20 + s 1%nat * 40)
  /\ y p' = VESSEL_Y + 30 + s 2%nat * (VESSEL_H - 80)
  /\ id p' = id p /\ size p' = size p.
Proof.
  intros Hr vx1 Hx p'. subst p'.
  unfold step_particle, vertical_mix, region_update, bind, ret, Math_random.
  cbn [lregion lx ly lvx lvy]. rewrite Hr. cbn [fst]. fold vx1.
  apply Qgtb_true in Hx. rewrite Hx. cbn. repeat split.
Qed.

(** C7: a step returns as many particles as it was given; for draws in
    [0, 1), each permeate particle of the population whose x exceeds the
    right-side limit is still there after the step, at the same index and
    with the same id and size, reset to a randomized feed-side position
    (x = VESSEL_X + 20 + 40 r, inside [VESSEL_X + 20, VESSEL_X + 60) before
    the hard bounds, and y = VESSEL_Y + 30 + r' (VESSEL_H - 80)) with zero
    velocity and region feed; and an action that changes the population
    size is a change of feedConcentration, meanSoluteSize or poreSize, or a
    reset. *)
Theorem population_conservation (dt : Q) (st : SimulationState)
        (s : RandomSource) :
  length (particles (fst (step dt st s))) = length (particles st)
  /\ (valid_source s ->
      Forall2
        (fun p p' =>
           region p = permeate ->
           permeateRightLimit
             < x p + (vx p + ((4 # 10) + pressure (params st) / 80) * dt)
                     * dt * 12 ->
           exists r r' : Q,
             (0 <= r /\ r < 1) /\ (0 <= r' /\ r' < 1)
             /\ region p' = feed /\ vx p' = 0 /\ vy p' = 0
             /\ x p' = hard_bounds (VESSEL_X + 20 + r * 40)
             /\ VESSEL_X + 20 <= VESSEL_X + 20 + r * 40
             /\ VESSEL_X + 20 + r * 40 < VESSEL_X + 60
             /\ y p' = VESSEL_Y + 30 + r' * (VESSEL_H - 80)
             /\ id p' = id p /\ size p' = size p)
        (particles st) (particles (fst (step dt st s))))
  /\ (forall a s',
        length (particles (fst (dispatch a st s'))) <> length (particles st) ->
        regenerating a = true).
Proof.
  split; [apply step_length |]. split.
  - intro Hs.
    eapply Forall2_impl; [| exact (step_pointwise dt st s Hs)].
    intros p p' (s' & Hv & ->) Hr Hx.
    destruct (permeate_recycled (params st) dt p s' Hr Hx)
      as (H1 & H2 & H3 & H4 & H5 & H6 & H7).
    destruct (Hv 1%nat) as [Hlo Hhi].
    exists (s' 1%nat), (s' 2%nat).
    split; [exact (Hv 1%nat) |]. split; [exact (Hv 2%nat) |].
    repeat split; try assumption; lra.
  - intros a s' Hne. destruct (regenerating a) eqn:E; [reflexivity |].
    elim Hne. apply dispatch_length. exact E.
Qed.

(** ** Flux *)

Lemma count_permeate_spec (ps : list Particle) :
  count_permeate ps = Z.of_nat (permeateCount ps).
Proof.
  unfold permeateCount. induction ps as [| p ps IH]; [reflexivity |].
  cbn [count_permeate filter]. destruct (region p); cbn [region_eqb length];
    rewrite IH; lia.
Qed.

Lemma rawFlux_formula (st : SimulationState) :
  rawFlux st
  = flux_formula (count_permeate (particles st)) (pressure (params st))
                 (time st) (membraneHealth st).
Proof. rewrite count_permeate_spec. reflexivity. Qed.

Lemma baseFlux_nonneg (st : SimulationState) :
  0 <= pressure (params st) -> 0 <= time st -> 0 <= baseFlux st.
Proof.
  intros Hp Ht. unfold baseFlux, Qdiv.
  apply Qmult_le_0_compat; [apply Qmult_le_0_compat |].
  - change 0 with (inject_Z 0). rewrite <- Zle_Qle. lia.
  - apply Qmult_le_0_compat; [exact Hp | discriminate].
  - apply Qinv_le_0_compat. lra.
Qed.

Lemma rawFlux_nonneg (st : SimulationState) :
  0 <= pressure (params st) -> 0 <= time st -> 0 <= membraneHealth st ->
  0 <= rawFlux st.
Proof.
  intros Hp Ht Hh. unfold rawFlux.
  apply Qmult_le_0_compat; [now apply baseFlux_nonneg |].
  qdiv. lra.
Qed.

(** On a non-negative argument [toFixed2] rounds half up. *)
Lemma toFixed2_nonneg (v : Q) :
  0 <= v -> toFixed2 v == inject_Z (Qfloor (v * 100 + (1 # 2))) / 100.
Proof.
  intro H. unfold toFixed2.
  assert (E : Qltb v 0 = false) by (apply Qltb_false; exact H).
  rewrite E. rewrite (Qabs_pos v H). reflexivity.
Qed.

Lemma half_up_close (v : Q) :
  Qabs (inject_Z (Qfloor (v * 100 + (1 # 2))) / 100 - v) <= 1 # 200.
Proof.
  pose proof (Qfloor_le (v * 100 + (1 # 2))) as Hlo.
  pose proof (Qlt_floor (v * 100 + (1 # 2))) as Hhi.
  rewrite inject_Z_plus in Hhi.
  set (n := inject_Z (Qfloor (v * 100 + (1 # 2)))) in *. clearbody n.
  apply Qabs_Qle_condition. qdiv.
  change (inject_Z 1) with 1 in Hhi. split; lra.
Qed.

Lemma toFixed2_ge_0 (v : Q) : 0 <= v -> 0 <= toFixed2 v.
Proof.
  intro H. rewrite (toFixed2_nonneg v H).
  assert (Hn : (0 <= Qfloor (v * 100 + (1 # 2)))%Z).
  { change 0%Z with (Qfloor 0). apply Qfloor_resp_le. lra. }
  rewrite Zle_Qle in Hn.
  set (n := inject_Z (Qfloor (v * 100 + (1 # 2)))) in *. clearbody n.
  change (inject_Z 0) with 0 in Hn. qdiv. lra.
Qed.

Lemma toFixed2_comp (v w : Q) : v == w -> toFixed2 v == toFixed2 w.
Proof.
  intro E. unfold toFixed2, Qltb.
  rewrite (Qleb_comp 0 0 (Qeq_refl 0) v w E).
  assert (En : Qfloor (Qabs v * 100 + (1 # 2))
               = Qfloor (Qabs w * 100 + (1 # 2)))
    by (apply Qfloor_comp; rewrite E; reflexivity).
  rewrite En. reflexivity.
Qed.

(** C4: for non-negative pressure, membraneHealth and elapsedTime the flux
    is (permeateCount x (pressure/50) / (1 + elapsedTime))
    x (0.4 + membraneHealth/100) rounded to two decimal places (a multiple
    of 1/100 within 1/200 of it), with permeateCount the number of
    particles whose region is permeate; it is a function of that count,
    pressure, elapsedTime and membraneHealth only. *)
Theorem flux_value (st : SimulationState) :
  0 <= pressure (params st) -> 0 <= membraneHealth st -> 0 <= time st ->
  let v := flux_formula (count_permeate (particles st))
                        (pressure (params st)) (time st)
                        (membraneHealth st) in
  rounded_2dp (flux st) v
  /\ (forall st2 : SimulationState,
        count_permeate (particles st2) = count_permeate (particles st) ->
        pressure (params st2) == pressure (params st) ->
        time st2 == time st ->
        membraneHealth st2 == membraneHealth st ->
        flux st2 == flux st).
Proof.
  intros Hp Hh Ht v.
  assert (Hv : 0 <= v)
    by (subst v; rewrite <- rawFlux_formula; now apply rawFlux_nonneg).
  assert (E : flux st = toFixed2 v)
    by (unfold flux; rewrite rawFlux_formula; reflexivity).
  rewrite E. split.
  - split.
    + exists (Qfloor (v * 100 + (1 # 2))). now apply toFixed2_nonneg.
    + rewrite (toFixed2_nonneg v Hv). apply half_up_close.
  - intros st2 Hc Hp2 Ht2 Hh2. unfold flux at 1.
    apply toFixed2_comp. rewrite rawFlux_formula. subst v.
    unfold flux_formula. rewrite Hc, Hp2, Ht2, Hh2. reflexivity.
Qed.

(** C5 (amended): for non-negative pressure, elapsedTime and health the flux
    is >= 0; with permeate count, pressure and elapsedTime fixed, the flux at
    membraneHealth = 0 is 40% of the health-unadjusted baseFlux (rounded to
    two decimals), which before rounding is 2/7 of the value at
    membraneHealth = 100, where the health factor is 1.4; the unrounded flux
    never falls below 40% of baseFlux. *)
Theorem flux_bound (st : SimulationState) :
  0 <= pressure (params st) -> 0 <= membraneHealth st -> 0 <= time st ->
  0 <= flux st
  /\ rawFlux (set_health st 0) == (4 # 10) * baseFlux st
  /\ flux (set_health st 0) == toFixed2 ((4 # 10) * baseFlux st)
  /\ rawFlux (set_health st 100) == (14 # 10) * baseFlux st
  /\ rawFlux (set_health st 0) == (2 # 7) * rawFlux (set_health st 100)
  /\ (4 # 10) * baseFlux st <= rawFlux st.
Proof.
  intros Hp Hh Ht.
  pose proof (baseFlux_nonneg st Hp Ht) as Hb.
  assert (E0 : rawFlux (set_health st 0) == (4 # 10) * baseFlux st).
  { unfold rawFlux. change (baseFlux (set_health st 0)) with (baseFlux st).
    cbn [membraneHealth set_health]. set (b := baseFlux st). field. }
  assert (E100 : rawFlux (set_health st 100) == (14 # 10) * baseFlux st).
  { unfold rawFlux. change (baseFlux (set_health st 100)) with (baseFlux st).
    cbn [membraneHealth set_health]. set (b := baseFlux st). field. }
  split; [apply toFixed2_ge_0; now apply rawFlux_nonneg |].
  split; [exact E0 |].
  split; [unfold flux; now apply toFixed2_comp |].
  split; [exact E100 |].
  split; [rewrite E0, E100; field |].
  unfold rawFlux. set (b := baseFlux st) in *. clearbody b.
  assert (Hm : 0 <= b * (membraneHealth st / 100)).
  { apply Qmult_le_0_compat; [exact Hb | qdiv; lra]. }
  setoid_replace (b * ((4 # 10) + membraneHealth st / 100))
    with ((4 # 10) * b + b * (membraneHealth st / 100)) by ring.
  lra.
Qed.

(** ** A step with dt = 0 *)

Lemma step_particle_dt_zero (pr : Params) (p : Particle) (s : RandomSource) :
  let p' := fst (step_particle pr 0 p s) in
  id p' = id p /\ size p' = size p
  /\ (stirRate pr == 0 -> at_rest p -> Particle_eqv p' p).
Proof.
  cbn zeta. split; [| split].
  - unfold step_particle, bind, ret.
    destruct (vertical_mix _ _ _) as [y1 s1].
    destruct (region_update _ _ _ _ _) as [l s2]. reflexivity.
  - unfold step_particle, bind, ret.
    destruct (vertical_mix _ _ _) as [y1 s1].
    destruct (region_update _ _ _ _ _) as [l s2]. reflexivity.
  - intros Hstir (Hy1 & Hy2 & Hx1 & Hx2 & Hreg).
    unfold step_particle, vertical_mix, bind, ret, Math_random.
    set (y1 := y p + (s 0%nat - (1 # 2)) * (stirRate pr / 140) * 12).
    assert (Ey1 : y1 == y p) by (subst y1; rewrite Hstir; field).
    assert (E1 : Qltb y1 topLimit = false) by (apply Qltb_false; lra).
    rewrite E1.
    assert (E2 : Qgtb y1 bottomLimit = false) by (apply Qgtb_false; lra).
    rewrite E2.
    unfold region_update, bind, ret, Math_random, retentate_dx.
    cbn [lregion lx ly lvx lvy].
    destruct (region p) eqn:Hr.
    + destruct Hreg as [Hvx Hxm].
      set (vx1 := vx p + ((1 # 2) + pressure pr / 70) * 0).
      assert (Evx : vx1 == 0) by (subst vx1; lra).
      set (x2 := x p + vx1 + _).
      assert (Ex2 : x2 == x p) by (subst x2; lra).
      assert (E3 : Qgeb x2 (MEMBRANE_X - 8) = false)
        by (apply Qgeb_false; lra).
      rewrite E3. cbn.
      assert (E4 : hard_bounds x2 == x p).
      { rewrite (hard_bounds_inside x2); lra. }
      unfold Particle_eqv; cbn. rewrite Hr.
      repeat split; try reflexivity; lra.
    + destruct Hreg as [Hlo Hhi]. cbn.
      set (x1 := x p + _).
      assert (Ex1 : x1 == x p) by (subst x1; lra).
      pose proof (clamp_inside x1 (VESSEL_X + 20) (MEMBRANE_X - 12)) as Hc.
      set (c := clamp x1 _ _) in *.
      assert (Ec : c == x p) by (rewrite Hc; lra).
      assert (E4 : hard_bounds c == x p).
      { rewrite (hard_bounds_inside c); lra. }
      unfold Particle_eqv; cbn. rewrite Hr.
      repeat split; try reflexivity; lra.
    + set (x1 := x p + _).
      assert (Ex1 : x1 == x p) by (subst x1; lra).
      assert (E3 : Qgtb x1 permeateRightLimit = false)
        by (apply Qgtb_false; lra).
      rewrite E3. cbn.
      assert (E4 : hard_bounds x1 == x p).
      { rewrite (hard_bounds_inside x1); lra. }
      unfold Particle_eqv; cbn. rewrite Hr.
      repeat split; try reflexivity; lra.
Qed.

(** C6 (amended): a step with dt = 0 leaves elapsedTime unchanged, leaves a
    membraneHealth in [0, 100] unchanged and keeps every particle's id and
    size; a particle keeps its position, velocity and region when stirRate
    is 0 and the particle is at rest inside the range of its region. *)
Theorem step_dt_zero (st : SimulationState) (s : RandomSource) :
  0 <= membraneHealth st -> membraneHealth st <= 100 ->
  let st' := fst (step 0 st s) in
  time st' == time st
  /\ membraneHealth st' == membraneHealth st
  /\ Forall2 (fun p p' =>
               id p' = id p /\ size p' = size p
               /\ (stirRate (params st) == 0 -> at_rest p ->
                   Particle_eqv p' p))
             (particles st) (particles st').
Proof.
  intros H0 H100 st'. subst st'.
  rewrite step_time, step_membraneHealth, step_particles.
  split; [lra |]. split.
  - unfold step_health.
    rewrite clamp_inside; lra.
  - apply mapM_Forall2. intros p s0.
    apply step_particle_dt_zero.
Qed.

(** ** Drift of retentate particles *)

Lemma inject_nat_succ (k : nat) :
  inject_Z (Z.of_nat (S k)) == inject_Z (Z.of_nat k) + 1.
Proof.
  rewrite Nat2Z.inj_succ. unfold Z.succ. rewrite inject_Z_plus. reflexivity.
Qed.

Lemma sum_retentate_dx (N dt : Q) (k : nat) :
  ~ N == 0 ->
  sum_upto k (fun j =>
    retentate_dx ((2 * inject_Z (Z.of_nat j) + 1) / (2 * N)) dt)
  == (inject_Z (Z.of_nat k) * inject_Z (Z.of_nat k) / (2 * N)
      - (3 # 10) * inject_Z (Z.of_nat k)) * dt * 25.
Proof.
  intro HN. induction k as [| k IH].
  - cbn [sum_upto]. change (inject_Z (Z.of_nat 0)) with 0. field. exact HN.
  - cbn [sum_upto]. rewrite IH, inject_nat_succ. unfold retentate_dx.
    set (K := inject_Z (Z.of_nat k)). field. exact HN.
Qed.

(** C9: the horizontal increment of a retentate particle,
    (r - 0.3) x dt x 25, has mean 5 dt over a uniform draw r: for dt > 0 it
    is strictly positive, a drift to the right, towards the membrane. *)
Theorem retentate_drift_mean (dt : Q) (n : nat) :
  0 < dt -> (0 < n)%nat ->
  midpoint_mean n (fun r => retentate_dx r dt) == 5 * dt
  /\ 0 < midpoint_mean n (fun r => retentate_dx r dt)
  /\ (forall r, retentate_dx r dt + retentate_dx (1 - r) dt == 10 * dt)
  /\ ~ midpoint_mean n (fun r => retentate_dx r dt) <= 0.
Proof.
  intros Hdt Hn.
  assert (HN : ~ inject_Z (Z.of_nat n) == 0).
  { intro E. unfold Qeq in E. cbn in E. lia. }
  assert (E : midpoint_mean n (fun r => retentate_dx r dt) == 5 * dt).
  { unfold midpoint_mean. rewrite (sum_retentate_dx _ dt n HN).
    set (N := inject_Z (Z.of_nat n)) in *. field. exact HN. }
  split; [exact E |]. split; [rewrite E; lra |].
  split; [intro r; unfold retentate_dx; ring |].
  rewrite E. lra.
Qed.

(** * Further properties of the engine *)

(** ** [clamp] *)

(** X1: clamp never returns less than its lower bound; with ordered bounds
    its result is also at most the upper bound, it is idempotent and it
    keeps a value that is inside; with inverted bounds (hi < lo) it returns
    the lower bound; it is monotone in the value. *)
Theorem clamp_edges (v lo hi : Q) :
  lo <= clamp v lo hi
  /\ (lo <= hi -> clamp v lo hi <= hi)
  /\ (lo <= v -> v <= hi -> clamp v lo hi == v)
  /\ (hi < lo -> clamp v lo hi == lo)
  /\ (lo <= hi -> clamp (clamp v lo hi) lo hi == clamp v lo hi)
  /\ (forall w, v <= w -> clamp v lo hi <= clamp w lo hi).
Proof.
  split; [clamp_cases; lra |].
  split; [intro H; clamp_cases; lra |].
  split; [intros H1 H2; clamp_cases; lra |].
  split; [intro H; clamp_cases; lra |].
  split.
  - intro H. destruct (clamp_bounds v lo hi H) as [H1 H2].
    apply clamp_inside; assumption.
  - intros w Hw. unfold clamp.
    apply Q.max_le_compat_l. apply Q.min_le_compat_l. exact Hw.
Qed.

(** ** [createParticles] *)

Lemma unit_scale (r w : Q) :
  0 <= r -> r <= 1 -> 0 <= w -> 0 <= r * w /\ r * w <= w.
Proof.
  intros H0 H1 Hw. split.
  - apply Qmult_le_0_compat; assumption.
  - setoid_replace w with (1 * w) at 2 by ring.
    apply Qmult_le_compat_r; assumption.
Qed.

Lemma Math_round_range (q : Q) (a b : Z) :
  inject_Z a <= q -> q <= inject_Z b -> (a <= Math_round q <= b)%Z.
Proof.
  intros Ha Hb. unfold Math_round. split.
  - rewrite <- (Qfloor_Z a). apply Qfloor_resp_le. lra.
  - assert (H : (Qfloor (q + (1 # 2)) <= Qfloor (inject_Z b + (1 # 2)))%Z)
      by (apply Qfloor_resp_le; lra).
    assert (E : Qfloor (inject_Z b + (1 # 2)) = b).
    { apply Z.le_antisymm.
      - apply Z.lt_succ_r. rewrite Zlt_Qlt.
        eapply Qle_lt_trans; [apply Qfloor_le |].
        unfold Z.succ. rewrite inject_Z_plus.
        change (inject_Z 1) with 1. lra.
      - rewrite <- (Qfloor_Z b) at 1. apply Qfloor_resp_le. lra. }
    lia.
Qed.

Lemma Math_round_mono (q r : Q) : q <= r -> (Math_round q <= Math_round r)%Z.
Proof. intro H. unfold Math_round. apply Qfloor_resp_le. lra. Qed.

(** The clamped, normalised concentration of [createParticles]. *)
Lemma normalized_range (c : Q) :
  0 <= clamp ((c - 100) / (1500 - 100)) 0 1
  /\ clamp ((c - 100) / (1500 - 100)) 0 1 <= 1.
Proof. apply clamp_bounds. lra. Qed.

Lemma createParticles_length_range (c m : Q) (s : RandomSource) :
  (20 <= length (fst (createParticles c m s)) <= 150)%nat.
Proof.
  unfold createParticles. rewrite mapM_length, length_seq.
  destruct (normalized_range c) as [H0 H1].
  assert (H : (20 <= Math_round
                 (20 + clamp ((c - 100) / (1500 - 100)) 0 1 * 130) <= 150)%Z)
    by (apply Math_round_range;
        [change (inject_Z 20) with 20 | change (inject_Z 150) with 150];
        lra).
  lia.
Qed.

Lemma createParticles_length (c m : Q) (s : RandomSource) :
  Z.of_nat (length (fst (createParticles c m s)))
  = Math_round (20 + clamp ((c - 100) / (1500 - 100)) 0 1 * 130).
Proof.
  unfold createParticles. rewrite mapM_length, length_seq.
  destruct (normalized_range c) as [H0 H1].
  apply Z2Nat.id.
  assert (H : (20 <= Math_round
                 (20 + clamp ((c - 100) / (1500 - 100)) 0 1 * 130) <= 150)%Z)
    by (apply Math_round_range;
        [change (inject_Z 20) with 20 | change (inject_Z 150) with 150];
        lra).
  lia.
Qed.

(** X2: createParticles returns round(20 + normalized x 130) particles,
    never fewer than 20 nor more than 150 whatever the concentration: 20 up
    to concentration 100, 150 from concentration 1500 on, and a higher
    concentration never gives fewer particles. *)
Theorem createParticles_count (c m : Q) (s : RandomSource) :
  let n := length (fst (createParticles c m s)) in
  (20 <= n <= 150)%nat
  /\ Z.of_nat n
     = Math_round (20 + clamp ((c - 100) / (1500 - 100)) 0 1 * 130)
  /\ (c <= 100 -> n = 20%nat)
  /\ (1500 <= c -> n = 150%nat)
  /\ (forall c' m' s', c <= c' ->
        (n <= length (fst (createParticles c' m' s')))%nat).
Proof.
  intro n. pose proof (createParticles_length c m s) as E. fold n in E.
  destruct (normalized_range c) as [H0 H1].
  set (k := clamp ((c - 100) / (1500 - 100)) 0 1) in *.
  assert (R : (20 <= Math_round (20 + k * 130) <= 150)%Z)
    by (apply Math_round_range;
        [change (inject_Z 20) with 20 | change (inject_Z 150) with 150];
        lra).
  split; [lia |]. split; [exact E |]. split; [| split].
  - intro Hc.
    assert (Ek : k == 0).
    { subst k. clear E R H0 H1. unfold Qdiv.
      change (/ (1500 - 100)) with (1 # 1400). clamp_cases; lra. }
    assert (Er : Math_round (20 + k * 130) = 20%Z).
    { unfold Math_round.
      rewrite (Qfloor_comp (20 + k * 130 + (1 # 2)) (20 + (1 # 2)))
        by (rewrite Ek; ring).
      reflexivity. }
    lia.
  - intro Hc.
    assert (Ek : k == 1).
    { subst k. clear E R H0 H1. unfold Qdiv.
      change (/ (1500 - 100)) with (1 # 1400). clamp_cases; lra. }
    assert (Er : Math_round (20 + k * 130) = 150%Z).
    { unfold Math_round.
      rewrite (Qfloor_comp (20 + k * 130 + (1 # 2)) (150 + (1 # 2)))
        by (rewrite Ek; ring).
      reflexivity. }
    lia.
  - intros c' m' s' Hc.
    pose proof (createParticles_length c' m' s') as E'.
    assert (Hk : k <= clamp ((c' - 100) / (1500 - 100)) 0 1).
    { subst k. unfold clamp.
      apply Q.max_le_compat_l. apply Q.min_le_compat_l.
      unfold Qdiv. change (/ (1500 - 100)) with (1 # 1400). lra. }
    assert (Hm : (Math_round (20 + k * 130)
                  <= Math_round
                       (20 + clamp ((c' - 100) / (1500 - 100)) 0 1 * 130))%Z)
      by (apply Math_round_mono; lra).
    lia.
Qed.


Lemma createParticle_valid (m : Q) (i : nat) (s : RandomSource) :
  valid_source s -> valid_source (snd (createParticle m i s)).
Proof. intros H n. cbn. apply H. Qed.

Lemma Forall2_Forall_r {A B} (P : B -> Prop) (l : list A) (l' : list B) :
  Forall2 (fun _ b => P b) l l' -> Forall P l'.
Proof. induction 1; constructor; assumption. Qed.

Lemma createParticles_ids_of (m : Q) (l : list nat) (s : RandomSource) :
  map id (fst (mapM (createParticle m) l s)) = l.
Proof.
  revert s. induction l as [| i l IH]; intro s; [reflexivity |].
  cbn [mapM]. unfold bind at 1.
  destruct (createParticle m i s) as [b s1] eqn:Eb.
  unfold bind at 1. specialize (IH s1).
  destruct (mapM (createParticle m) l s1) as [bs s2].
  cbn in *. rewrite IH. f_equal.
  unfold createParticle, bind, ret, Math_random in Eb.
  injection Eb as Eb _. subst b. reflexivity.
Qed.

Lemma createParticle_fresh (m : Q) (i : nat) (s : RandomSource) :
  valid_source s ->
  VESSEL_X + 80 <= MEMBRANE_X -> 80 <= VESSEL_H ->
  let p := fst (createParticle m i s) in
  region p = feed /\ vx p = 0 /\ vy p = 0
  /\ 4 <= size p /\ size p <= 20
  /\ VESSEL_X + 20 <= x p /\ x p <= MEMBRANE_X - 60
  /\ VESSEL_Y + 30 <= y p /\ y p <= VESSEL_Y + VESSEL_H - 50
  /\ side_ok p.
Proof.
  intros Hs Hx Hy p.
  destruct (Hs 1%nat) as [Ha1 Ha2]. destruct (Hs 2%nat) as [Hb1 Hb2].
  destruct (unit_scale (s 1%nat) (MEMBRANE_X - VESSEL_X - 80)) as [U1 U2];
    try lra.
  destruct (unit_scale (s 2%nat) (VESSEL_H - 80)) as [V1 V2]; try lra.
  assert (Hsz : 4 <= size p /\ size p <= 20)
    by (apply clamp_bounds; lra).
  assert (Ex : x p = VESSEL_X + 20
                     + s 1%nat * (MEMBRANE_X - VESSEL_X - 80))
    by reflexivity.
  assert (Ey : y p = VESSEL_Y + 30 + s 2%nat * (VESSEL_H - 80))
    by reflexivity.
  assert (Hxl : x p <= MEMBRANE_X - 60) by (rewrite Ex; lra).
  repeat split; try reflexivity; try tauto;
    try (rewrite Ex; lra); try (rewrite Ey; lra).
  unfold side_ok. change (region p) with feed. cbv beta iota.
  apply Qle_lt_trans with (MEMBRANE_X - 60); [exact Hxl | lra].
Qed.

(** X3: the particles made by createParticles carry the ids 0, 1, ...,
    n - 1 in order (so no id occurs twice), are in region feed with zero
    velocity and a size in [4, 20]; for draws in [0, 1) and a vessel with
    VESSEL_X + 80 <= MEMBRANE_X and VESSEL_H >= 80 they start with x in
    [VESSEL_X + 20, MEMBRANE_X - 60] and y in
    [VESSEL_Y + 30, VESSEL_Y + VESSEL_H - 50], short of the membrane. *)
Theorem createParticles_fresh (c m : Q) (s : RandomSource) :
  valid_source s ->
  VESSEL_X + 80 <= MEMBRANE_X -> 80 <= VESSEL_H ->
  let ps := fst (createParticles c m s) in
  map id ps = seq 0 (length ps)
  /\ NoDup (map id ps)
  /\ Forall (fun p =>
       region p = feed /\ vx p = 0 /\ vy p = 0
       /\ 4 <= size p /\ size p <= 20
       /\ VESSEL_X + 20 <= x p /\ x p <= MEMBRANE_X - 60
       /\ VESSEL_Y + 30 <= y p /\ y p <= VESSEL_Y + VESSEL_H - 50
       /\ side_ok p) ps.
Proof.
  intros Hs Hx Hy ps.
  assert (Eid : map id ps = seq 0 (length ps)).
  { subst ps. unfold createParticles.
    rewrite createParticles_ids_of, mapM_length, length_seq. reflexivity. }
  split; [exact Eid |]. split; [rewrite Eid; apply seq_NoDup |].
  subst ps. unfold createParticles.
  eapply Forall2_Forall_r with (l := seq 0 _).
  eapply Forall2_impl;
    [| apply (mapM_pointwise (createParticle m)
                (createParticle_valid m) _ s Hs)].
  intros i p (s' & Hs' & ->).
  apply createParticle_fresh; assumption.
Qed.

(** X4: with draws in [0, 1) and a mean size in the slider range [6, 18] a
    created particle's size lies between 70% and 130% of the mean and the
    lower clamp at 4 never acts; up to a mean of 200/13 the upper clamp at 20
    does not act either and the size is exactly
    mean + (r - 0.5) x 0.6 mean. *)
Theorem createParticle_size (m : Q) (i : nat) (s : RandomSource) :
  valid_source s -> 6 <= m -> m <= 18 ->
  let sz := size (fst (createParticle m i s)) in
  (7 # 10) * m <= sz /\ sz <= (13 # 10) * m /\ sz <= 20
  /\ (m <= 200 # 13 ->
      sz == m + (s 0%nat - (1 # 2)) * (m * (6 # 10))).
Proof.
  intros Hs Hm Hm' sz.
  destruct (Hs 0%nat) as [H0 H1].
  destruct (unit_scale (s 0%nat) (m * (6 # 10))) as [U1 U2]; try lra.
  assert (E : sz = clamp (m + (s 0%nat - (1 # 2)) * (m * (6 # 10))) 4 20)
    by reflexivity.
  assert (Ev : m + (s 0%nat - (1 # 2)) * (m * (6 # 10))
               == m + s 0%nat * (m * (6 # 10)) - (3 # 10) * m) by ring.
  set (v := m + (s 0%nat - (1 # 2)) * (m * (6 # 10))) in *.
  set (u := s 0%nat * (m * (6 # 10))) in *. clearbody v u.
  rewrite E. clear E.
  split; [clamp_cases; lra |]. split; [clamp_cases; lra |].
  split; [clamp_cases; lra |]. intro Hu. clamp_cases; lra.
Qed.

(** ** Regeneration and reset *)

Lemma all_feed_count (r : ParticleRegion) (ps : list Particle) :
  r <> feed -> Forall (fun p => region p = feed) ps -> count_region r ps = 0%nat.
Proof.
  intros Hr H. unfold count_region.
  induction H as [| p ps Hp _ IH]; [reflexivity |].
  cbn [filter]. rewrite Hp. destruct r; try (now elim Hr); exact IH.
Qed.

Lemma createParticles_all_feed (c m : Q) (s : RandomSource) :
  Forall (fun p => region p = feed) (fst (createParticles c m s)).
Proof.
  unfold createParticles.
  eapply Forall2_Forall_r with (l := seq 0 _).
  apply mapM_Forall2. intros a s0. reflexivity.
Qed.

Lemma no_permeate_flux (st : SimulationState) :
  permeateCount (particles st) = 0%nat -> flux st == 0.
Proof.
  intro H. unfold flux.
  rewrite (toFixed2_comp (rawFlux st) 0); [reflexivity |].
  unfold rawFlux, baseFlux. rewrite H.
  change (inject_Z (Z.of_nat 0)) with 0. unfold Qdiv. ring.
Qed.

(** X5: reset puts elapsedTime at 0 and membraneHealth at 100, keeps the
    controls and the run flag, and installs between 20 and 150 particles
    that are all in region feed, so that the flux shown right after it is
    0; the regeneration that follows a change of feedConcentration,
    meanSoluteSize or poreSize does the same except that it keeps
    membraneHealth. *)
Theorem reset_and_regenerate (st : SimulationState) (s : RandomSource) :
  let r := fst (handleResetSystem st s) in
  let g := fst (regenerate st s) in
  (time r = 0 /\ membraneHealth r = 100 /\ params r = params st
   /\ isRunning r = isRunning st
   /\ (20 <= length (particles r) <= 150)%nat
   /\ Forall (fun p => region p = feed) (particles r)
   /\ flux r == 0)
  /\ (time g = 0 /\ membraneHealth g = membraneHealth st
      /\ params g = params st /\ particles g = particles r
      /\ flux g == 0).
Proof.
  intros r g.
  assert (Er : particles r
               = fst (createParticles (feedConcentration (params st))
                                      (meanSoluteSize (params st)) s)).
  { subst r. unfold handleResetSystem, bind, ret.
    destruct (createParticles _ _ s). reflexivity. }
  assert (Eg : particles g = particles r).
  { rewrite Er. subst g. unfold regenerate, bind, ret.
    destruct (createParticles _ _ s). reflexivity. }
  assert (Hf : Forall (fun p => region p = feed) (particles r))
    by (rewrite Er; apply createParticles_all_feed).
  assert (Hc : permeateCount (particles r) = 0%nat)
    by (apply (all_feed_count permeate); [discriminate | exact Hf]).
  split.
  - repeat split;
      try (subst r; unfold handleResetSystem, bind, ret;
           destruct (createParticles _ _ s); reflexivity).
    + rewrite Er. apply createParticles_length_range.
    + rewrite Er. apply createParticles_length_range.
    + exact Hf.
    + apply no_permeate_flux. exact Hc.
  - repeat split;
      try (subst g; unfold regenerate, bind, ret;
           destruct (createParticles _ _ s); reflexivity).
    + exact Eg.
    + apply no_permeate_flux. rewrite Eg. exact Hc.
Qed.


(** ** What a step keeps and what it may change *)

(** Unfolds the map callback on particle [p] and splits on the region and
    on every test it makes. *)
Ltac step_cases p :=
  unfold step_particle, vertical_mix, region_update, bind, ret, Math_random;
  cbn [lregion lx ly lvx lvy];
  destruct (region p) eqn:?; cbn [fst snd];
  repeat match goal with
  | |- context [if ?b then _ else _] => destruct b eqn:?
  end;
  cbn [fst snd id x y size vx vy region lregion lx ly lvx lvy].

Lemma Forall2_map_eq {A B} (f : A -> B) (l l' : list A) :
  Forall2 (fun a b => f b = f a) l l' -> map f l' = map f l.
Proof. induction 1; cbn; congruence. Qed.

Lemma step_particle_id_size (pr : Params) (dt : Q) (p : Particle)
      (s : RandomSource) :
  id (fst (step_particle pr dt p s)) = id p
  /\ size (fst (step_particle pr dt p s)) = size p.
Proof. step_cases p; split; reflexivity. Qed.

Lemma step_particle_transition (pr : Params) (dt : Q) (p : Particle)
      (s : RandomSource) :
  step_transition (region p) (region (fst (step_particle pr dt p s))) = true.
Proof. step_cases p; reflexivity. Qed.

Lemma step_particle_sieve (pr : Params) (dt : Q) (p : Particle)
      (s : RandomSource) :
  let p' := fst (step_particle pr dt p s) in
  (region p' = permeate -> region p <> permeate -> size p < poreSize pr)
  /\ (region p' = retentate -> region p <> retentate ->
      poreSize pr <= size p).
Proof.
  cbn zeta. step_cases p; split; intros H1 H2;
    try discriminate; try congruence;
    try (apply Qltb_true; assumption);
    try (apply Qltb_false; assumption).
Qed.

(** X6: a step and a backwash keep the id and the size of every particle,
    position by position; ids that are pairwise distinct stay so. *)
Theorem identity_preserved (dt : Q) (st : SimulationState) (s : RandomSource) :
  let ps' := particles (fst (step dt st s)) in
  let bs := particles (handleBackwash st) in
  map id ps' = map id (particles st)
  /\ map size ps' = map size (particles st)
  /\ map id bs = map id (particles st)
  /\ map size bs = map size (particles st)
  /\ (NoDup (map id (particles st)) ->
      NoDup (map id ps') /\ NoDup (map id bs)).
Proof.
  intros ps' bs.
  assert (E1 : map id ps' = map id (particles st)).
  { subst ps'. rewrite step_particles. apply Forall2_map_eq.
    apply mapM_Forall2. intros a s0. apply step_particle_id_size. }
  assert (E2 : map size ps' = map size (particles st)).
  { subst ps'. rewrite step_particles. apply Forall2_map_eq.
    apply mapM_Forall2. intros a s0. apply step_particle_id_size. }
  assert (E3 : map id bs = map id (particles st)).
  { subst bs. cbn. rewrite map_map. apply map_ext.
    intro p. unfold backwash_particle. destruct (region_eqb _ _); reflexivity. }
  assert (E4 : map size bs = map size (particles st)).
  { subst bs. cbn. rewrite map_map. apply map_ext.
    intro p. unfold backwash_particle. destruct (region_eqb _ _); reflexivity. }
  repeat split; try assumption; intros; congruence.
Qed.

Lemma count_region_mono (r : ParticleRegion) (l l' : list Particle) :
  Forall2 (fun p p' => region p = r -> region p' = r) l l' ->
  (count_region r l <= count_region r l')%nat.
Proof.
  unfold count_region. induction 1 as [| p p' l l' H _ IH]; [cbn; lia |].
  cbn [filter].
  destruct (region_eqb (region p) r) eqn:E.
  - assert (Hr : region p = r)
      by (revert E; destruct (region p), r; cbn; congruence).
    rewrite (H Hr).
    assert (E' : region_eqb r r = true) by (destruct r; reflexivity).
    rewrite E'. cbn. lia.
  - destruct (region_eqb (region p') r); cbn; lia.
Qed.

(** X7: in one step a region only changes along feed -> permeate,
    feed -> retentate and permeate -> feed; a retentate particle stays
    retentate whatever the controls (only backwash releases it), so the
    number of retentate particles never falls in a step. *)
Theorem step_region_transitions (dt : Q) (st : SimulationState)
        (s : RandomSource) :
  let ps' := particles (fst (step dt st s)) in
  Forall2 (fun p p' => step_transition (region p) (region p') = true)
          (particles st) ps'
  /\ Forall2 (fun p p' => region p = retentate -> region p' = retentate)
             (particles st) ps'
  /\ (count_region retentate (particles st)
      <= count_region retentate ps')%nat.
Proof.
  intro ps'. subst ps'. rewrite step_particles.
  assert (T : Forall2
                (fun p p' => step_transition (region p) (region p') = true)
                (particles st)
                (fst (mapM (step_particle (params st) dt) (particles st) s)))
    by (apply mapM_Forall2; intros a s0; apply step_particle_transition).
  assert (R : Forall2 (fun p p' => region p = retentate ->
                                   region p' = retentate)
                (particles st)
                (fst (mapM (step_particle (params st) dt) (particles st) s))).
  { eapply Forall2_impl; [| exact T]. intros p p' H Hr.
    cbv beta in H. rewrite Hr in H. destruct (region p'); try discriminate. reflexivity. }
  split; [exact T |]. split; [exact R |].
  apply count_region_mono. exact R.
Qed.

(** X8: the membrane sieves by size in every step: a particle that is
    permeate after the step and was not before has size < poreSize, and a
    particle that is retentate after the step and was not before has
    size >= poreSize. *)
Theorem step_sieves_by_size (dt : Q) (st : SimulationState)
        (s : RandomSource) :
  Forall2 (fun p p' =>
             (region p' = permeate -> region p <> permeate ->
              size p < poreSize (params st))
             /\ (region p' = retentate -> region p <> retentate ->
                 poreSize (params st) <= size p))
          (particles st) (particles (fst (step dt st s))).
Proof.
  rewrite step_particles. apply mapM_Forall2.
  intros a s0. apply step_particle_sieve.
Qed.


(** ** Sides of the membrane *)

Lemma hard_bounds_below (v u : Q) :
  v < u -> leftLimit < u -> hard_bounds v < u.
Proof.
  intros Hv Hl. unfold hard_bounds.
  destruct (Qltb v leftLimit) eqn:E1.
  - destruct (Qgtb leftLimit rightLimit) eqn:E2;
      [apply Qgtb_true in E2 |]; lra.
  - destruct (Qgtb v rightLimit) eqn:E2;
      [apply Qgtb_true in E2 |]; lra.
Qed.

(** Turns the recorded outcomes of boolean tests into inequalities. *)
Ltac tests_to_props :=
  repeat match goal with
  | H : Qltb _ _ = true |- _ => apply Qltb_true in H
  | H : Qltb _ _ = false |- _ => apply Qltb_false in H
  | H : Qgtb _ _ = true |- _ => apply Qgtb_true in H
  | H : Qgtb _ _ = false |- _ => apply Qgtb_false in H
  | H : Qgeb _ _ = true |- _ => apply Qgeb_true in H
  | H : Qgeb _ _ = false |- _ => apply Qgeb_false in H
  end.

Lemma step_particle_side_ok (pr : Params) (dt : Q) (p : Particle)
      (s : RandomSource) :
  geometry_ok -> 0 <= dt -> 0 <= pressure pr -> valid_source s ->
  side_ok p -> side_ok (fst (step_particle pr dt p s)).
Proof.
  intros [G1 G2] Hdt Hp Hs Hok.
  unfold permeateRightLimit in G2.
  destruct (Hs 1%nat) as [Hr0 Hr1].
  unfold side_ok in Hok.
  unfold step_particle, vertical_mix, region_update, bind, ret, Math_random.
  cbn [lregion lx ly lvx lvy fst snd].
  destruct (region p) eqn:Hreg; cbn [fst snd].
  - (* feed *)
    destruct (Qgeb _ _) eqn:Hm.
    + destruct (Qltb (size p) (poreSize pr)) eqn:Hsz;
        unfold side_ok; cbn [fst region x vx lregion lx lvx].
      * rewrite hard_bounds_inside
          by (unfold leftLimit, rightLimit; lra).
        unfold permeateRightLimit. qdiv. repeat split; lra.
      * rewrite hard_bounds_inside
          by (unfold leftLimit, rightLimit; lra).
        split; lra.
    + unfold side_ok; cbn [fst region x vx lregion lx lvx].
      apply Qgeb_false in Hm.
      apply hard_bounds_below; [exact Hm | unfold leftLimit; lra].
  - (* retentate *)
    unfold side_ok; cbn [fst region x vx lregion lx lvx].
    set (c := clamp _ _ _).
    assert (Hc : VESSEL_X + 20 <= c /\ c <= MEMBRANE_X - 12)
      by (apply clamp_bounds; lra).
    rewrite hard_bounds_inside by (unfold leftLimit, rightLimit; lra).
    split; lra.
  - (* permeate *)
    destruct Hok as (Hx1 & Hx2 & Hv).
    unfold permeateRightLimit in Hx2.
    assert (Ha : 0 <= ((4 # 10) + pressure pr / 80) * dt)
      by (apply Qmult_le_0_compat; [qdiv; lra | exact Hdt]).
    set (vx1 := vx p + ((4 # 10) + pressure pr / 80) * dt) in *.
    assert (Hv1 : 0 <= vx1) by (subst vx1; lra).
    assert (Hd : 0 <= vx1 * dt * 12).
    { apply Qmult_le_0_compat; [| lra].
      apply Qmult_le_0_compat; assumption. }
    destruct (Qgtb _ _) eqn:Hexit;
      unfold side_ok; cbn [fst region x vx lregion lx lvx].
    + apply hard_bounds_below; [| unfold leftLimit; lra].
      cbv beta. lra.
    + apply Qgtb_false in Hexit. unfold permeateRightLimit in *.
      rewrite hard_bounds_inside by (unfold leftLimit, rightLimit; lra).
      repeat split; lra.
Qed.

Lemma step_side_ok_all (dt : Q) (st : SimulationState) (s : RandomSource) :
  geometry_ok -> 0 <= dt -> 0 <= pressure (params st) -> valid_source s ->
  Forall side_ok (particles st) ->
  Forall side_ok (particles (fst (step dt st s))).
Proof.
  intros G Hdt Hp Hs Hall.
  pose proof (step_pointwise dt st s Hs) as HF.
  induction HF as [| p p' l l' (s' & Hs' & ->) _ IH].
  - constructor.
  - inversion Hall as [| ? ? Hp0 Hl]; subst.
    constructor; [| apply IH; exact Hl].
    apply step_particle_side_ok; assumption.
Qed.

(** X9: in a vessel with VESSEL_X + 60 <= MEMBRANE_X - 8 and
    MEMBRANE_X + 16 <= VESSEL_X + VESSEL_W - 20, for dt >= 0, pressure >= 0
    and draws in [0, 1), a step keeps every particle on the side of the
    membrane that its region names: feed particles end with
    x < MEMBRANE_X - 8, retentate particles with x in
    [VESSEL_X + 20, MEMBRANE_X - 10], permeate particles with x in
    [MEMBRANE_X + 16, VESSEL_X + VESSEL_W - 20] and vx >= 0, provided they
    started so. *)
Theorem step_keeps_sides (dt : Q) (st : SimulationState) (s : RandomSource) :
  geometry_ok -> 0 <= dt -> 0 <= pressure (params st) -> valid_source s ->
  Forall side_ok (particles st) ->
  Forall side_ok (particles (fst (step dt st s))).
Proof. apply step_side_ok_all. Qed.

(** X10: after a step every x lies between the hard bounds
    VESSEL_X + 10 and VESSEL_X + VESSEL_W - 10 (when VESSEL_W >= 20), and
    the y of a particle that entered the step as feed lies between the
    vertical limits VESSEL_Y + 20 and VESSEL_Y + VESSEL_H - 20 (when
    VESSEL_H >= 40), whatever dt, the controls and the draws. *)
Theorem step_position_bounds (dt : Q) (st : SimulationState)
        (s : RandomSource) :
  20 <= VESSEL_W -> 40 <= VESSEL_H ->
  Forall2 (fun p p' =>
             (leftLimit <= x p' /\ x p' <= rightLimit)
             /\ (region p = feed ->
                 topLimit <= y p' /\ y p' <= bottomLimit))
          (particles st) (particles (fst (step dt st s))).
Proof.
  intros Hw Hh. rewrite step_particles. apply mapM_Forall2.
  intros p s0. split.
  - apply step_particle_x_bounds. unfold leftLimit, rightLimit. lra.
  - intro Hr.
    unfold step_particle, vertical_mix, region_update, bind, ret, Math_random.
    cbn [lregion lx ly lvx lvy fst snd]. rewrite Hr.
    set (y1 := y p + _).
    assert (Hy3 : topLimit
                  <= (if Qgtb (if Qltb y1 topLimit then topLimit else y1)
                               bottomLimit
                      then bottomLimit
                      else if Qltb y1 topLimit then topLimit else y1)
                  /\ (if Qgtb (if Qltb y1 topLimit then topLimit else y1)
                              bottomLimit
                      then bottomLimit
                      else if Qltb y1 topLimit then topLimit else y1)
                     <= bottomLimit).
    { unfold topLimit, bottomLimit in *.
      destruct (Qltb y1 (VESSEL_Y + 20)) eqn:E1;
        destruct (Qgtb _ _) eqn:E2; tests_to_props; lra. }
    destruct (Qgeb _ _); [destruct (Qltb (size p) _) |];
      cbn [fst y ly]; exact Hy3.
Qed.


(** ** More on backwash *)

Lemma backwash_particle_region (p : Particle) :
  region (backwash_particle p)
  = match region p with retentate => feed | r => r end.
Proof.
  unfold backwash_particle.
  destruct (region p) eqn:E; cbn [region_eqb region]; try exact E; reflexivity.
Qed.

Lemma handleBackwash_permeateCount (st : SimulationState) :
  permeateCount (particles (handleBackwash st)) = permeateCount (particles st).
Proof.
  cbn [handleBackwash particles]. unfold permeateCount.
  induction (particles st) as [| p ps IH]; [reflexivity |].
  cbn [map filter]. rewrite backwash_particle_region.
  destruct (region p); cbn [region_eqb length]; rewrite ?IH; reflexivity.
Qed.

(** X11: after a backwash no particle is retentate; the permeate particles
    are the same in number and the feed particles are the former feed and
    retentate particles together; a second backwash changes no particle;
    and particles that were on the side of the membrane their region names
    still are (a released particle lands left of MEMBRANE_X - 8). *)
Theorem handleBackwash_clears (st : SimulationState) :
  let bs := particles (handleBackwash st) in
  count_region retentate bs = 0%nat
  /\ count_region permeate bs = count_region permeate (particles st)
  /\ count_region feed bs
     = (count_region feed (particles st)
        + count_region retentate (particles st))%nat
  /\ particles (handleBackwash (handleBackwash st)) = bs
  /\ (Forall side_ok (particles st) -> Forall side_ok bs).
Proof.
  cbn zeta. cbn [handleBackwash particles]. unfold count_region.
  induction (particles st) as [| p ps (I1 & I2 & I3 & I4 & I5)].
  - cbn. repeat split; constructor.
  - cbn [map filter]. rewrite !backwash_particle_region.
    split; [| split; [| split; [| split]]].
    + destruct (region p); cbn [region_eqb]; exact I1.
    + destruct (region p); cbn [region_eqb length]; rewrite ?I2; reflexivity.
    + destruct (region p); cbn [region_eqb length]; rewrite ?I3; lia.
    + rewrite I4. f_equal. apply backwash_particle_other.
      rewrite backwash_particle_region. destruct (region p); discriminate.
    + intro H. inversion H as [| ? ? Hp Hps]; subst.
      constructor; [| apply I5; exact Hps].
      unfold side_ok in *. rewrite backwash_particle_region.
      unfold backwash_particle.
      destruct (region p); cbn [region_eqb x vx]; try exact Hp.
      lra.
Qed.

Lemma scale_mono (b u v : Q) : 0 <= b -> u <= v -> b * u <= b * v.
Proof.
  intros Hb Huv. rewrite (Qmult_comm b u), (Qmult_comm b v).
  apply Qmult_le_compat_r; assumption.
Qed.

Lemma toFixed2_mono (v w : Q) : 0 <= v -> v <= w -> toFixed2 v <= toFixed2 w.
Proof.
  intros Hv Hw.
  rewrite (toFixed2_nonneg v Hv), (toFixed2_nonneg w) by lra.
  assert (H : (Qfloor (v * 100 + (1 # 2)) <= Qfloor (w * 100 + (1 # 2)))%Z)
    by (apply Qfloor_resp_le; lra).
  rewrite Zle_Qle in H.
  set (a := inject_Z (Qfloor (v * 100 + (1 # 2)))) in *.
  set (b := inject_Z (Qfloor (w * 100 + (1 # 2)))) in *.
  clearbody a b. qdiv. lra.
Qed.

Lemma backwash_health_cases (a : Q) :
  0 <= a -> a <= 100 ->
  0 <= clamp (a + 25) 0 100 /\ clamp (a + 25) 0 100 <= 100
  /\ (clamp (a + 25) 0 100 == 100 \/ clamp (a + 25) 0 100 == a + 25).
Proof.
  intros H0 H1. split; [clamp_cases; lra |]. split; [clamp_cases; lra |].
  destruct (Qlt_le_dec 75 a) as [H | H].
  - left. clamp_cases; lra.
  - right. clamp_cases; lra.
Qed.

(** X12: on a membraneHealth in [0, 100] a backwash never lowers the
    health, adds exactly 25 up to health 75 and gives 100 above; with
    non-negative pressure and elapsedTime it never lowers the flux; and four
    backwashes in a row bring any such health to 100. *)
Theorem handleBackwash_restores (st : SimulationState) :
  0 <= membraneHealth st -> membraneHealth st <= 100 ->
  0 <= pressure (params st) -> 0 <= time st ->
  let h' := membraneHealth (handleBackwash st) in
  membraneHealth st <= h' /\ h' <= 100
  /\ (membraneHealth st <= 75 -> h' == membraneHealth st + 25)
  /\ (75 <= membraneHealth st -> h' == 100)
  /\ flux st <= flux (handleBackwash st)
  /\ membraneHealth
       (handleBackwash (handleBackwash (handleBackwash (handleBackwash st))))
     == 100.
Proof.
  intros H0 H100 Hp Ht h'. subst h'. cbn [handleBackwash membraneHealth].
  split; [clamp_cases; lra |]. split; [clamp_cases; lra |].
  split; [intro; clamp_cases; lra |]. split; [intro; clamp_cases; lra |].
  split.
  - unfold flux. apply toFixed2_mono; [now apply rawFlux_nonneg |].
    unfold rawFlux, baseFlux.
    rewrite handleBackwash_permeateCount.
    cbn [handleBackwash params time membraneHealth].
    pose proof (baseFlux_nonneg st Hp Ht) as Hb. unfold baseFlux in Hb.
    set (b := inject_Z _ * _ / _) in *. clearbody b.
    assert (Hh : membraneHealth st <= clamp (membraneHealth st + 25) 0 100)
      by (clamp_cases; lra).
    set (h2 := clamp _ _ _) in *. clearbody h2.
    apply scale_mono; [exact Hb |]. qdiv. lra.
  - set (h := membraneHealth st) in *. clearbody h.
    destruct (backwash_health_cases h H0 H100) as (A0 & A1 & A).
    set (h1 := clamp (h + 25) 0 100) in *. clearbody h1.
    destruct (backwash_health_cases h1 A0 A1) as (B0 & B1 & B).
    set (h2 := clamp (h1 + 25) 0 100) in *. clearbody h2.
    destruct (backwash_health_cases h2 B0 B1) as (C0 & C1 & C).
    set (h3 := clamp (h2 + 25) 0 100) in *. clearbody h3.
    destruct (backwash_health_cases h3 C0 C1) as (D0 & D1 & D).
    set (h4 := clamp (h3 + 25) 0 100) in *. clearbody h4.
    destruct A, B, C, D; lra.
Qed.


(** ** Health and time across actions *)

Lemma step_params (dt : Q) (st : SimulationState) (s : RandomSource) :
  params (fst (step dt st s)) = params st.
Proof.
  unfold step, bind, ret.
  destruct (mapM (step_particle (params st) dt) (particles st) s).
  reflexivity.
Qed.

Lemma regenerate_health (st : SimulationState) (s : RandomSource) :
  membraneHealth (fst (regenerate st s)) = membraneHealth st.
Proof.
  unfold regenerate, bind, ret. destruct (createParticles _ _ s). reflexivity.
Qed.

Lemma set_watched_health (old v : Q) (st : SimulationState)
      (s : RandomSource) :
  membraneHealth (fst (set_watched old v st s)) = membraneHealth st.
Proof.
  unfold set_watched. destruct (Qeq_bool old v);
    [reflexivity | apply regenerate_health].
Qed.

(** X13: whatever the action, its arguments and the draws, a
    membraneHealth in [0, 100] is still in [0, 100] afterwards (a frame and
    a backwash even bring any health into [0, 100]); and apart from a frame,
    a reset and a backwash no action changes it. *)
Theorem health_stays_in_range (a : Action) (st : SimulationState)
        (s : RandomSource) :
  0 <= membraneHealth st -> membraneHealth st <= 100 ->
  let h' := membraneHealth (fst (dispatch a st s)) in
  0 <= h' /\ h' <= 100
  /\ (touches_health a = false -> h' = membraneHealth st)
  /\ (forall dt st0 s0,
        0 <= membraneHealth (fst (step dt st0 s0))
        /\ membraneHealth (fst (step dt st0 s0)) <= 100
        /\ 0 <= membraneHealth (handleBackwash st0)
        /\ membraneHealth (handleBackwash st0) <= 100).
Proof.
  intros H0 H100 h'.
  assert (A : forall dt st0 s0,
             0 <= membraneHealth (fst (step dt st0 s0))
             /\ membraneHealth (fst (step dt st0 s0)) <= 100
             /\ 0 <= membraneHealth (handleBackwash st0)
             /\ membraneHealth (handleBackwash st0) <= 100).
  { intros dt st0 s0. rewrite step_membraneHealth. unfold step_health.
    cbn [handleBackwash membraneHealth].
    repeat split; apply clamp_bounds; lra. }
  assert (E : touches_health a = false -> h' = membraneHealth st).
  { subst h'. destruct a; cbn [touches_health dispatch]; intro H;
      try discriminate; try reflexivity;
      rewrite set_watched_health; reflexivity. }
  assert (R : 0 <= h' /\ h' <= 100).
  { destruct (touches_health a) eqn:T.
    - subst h'. destruct a; try discriminate T; cbn [dispatch].
      + destruct (isRunning st); [| cbn; split; assumption].
        split; apply (A dt st s).
      + unfold handleResetSystem, bind, ret.
        destruct (createParticles _ _ s). cbn. split; lra.
      + cbn [ret fst]. split; apply (A 0 st s).
    - rewrite (E eq_refl). split; assumption. }
  destruct R as [R0 R1].
  split; [exact R0 |]. split; [exact R1 |]. split; [exact E | exact A].
Qed.

(** ** Flux as a function of health and time *)

(** X15: with the particles and a non-negative pressure fixed, the flux
    does not fall when membraneHealth rises (from a non-negative health) and
    does not rise when elapsedTime grows (from a non-negative time). *)
Theorem flux_monotone (st : SimulationState) (h1 h2 t1 t2 : Q) :
  0 <= pressure (params st) ->
  0 <= time st -> 0 <= membraneHealth st ->
  0 <= h1 -> h1 <= h2 -> 0 <= t1 -> t1 <= t2 ->
  flux (set_health st h1) <= flux (set_health st h2)
  /\ flux (set_time st t2) <= flux (set_time st t1).
Proof.
  intros Hp Ht Hh Hh1 Hh12 Ht1 Ht12. split.
  - unfold flux. apply toFixed2_mono.
    + apply rawFlux_nonneg; assumption.
    + unfold rawFlux. change (baseFlux (set_health st h1)) with (baseFlux st).
      change (baseFlux (set_health st h2)) with (baseFlux st).
      cbn [set_health membraneHealth].
      apply scale_mono; [now apply baseFlux_nonneg |]. qdiv. lra.
  - unfold flux. apply toFixed2_mono.
    + apply rawFlux_nonneg; cbn [set_time params time membraneHealth];
        try assumption; lra.
    + unfold rawFlux, baseFlux.
      cbn [set_time params time membraneHealth particles].
      set (n := inject_Z _ * _).
      assert (Hn : 0 <= n).
      { subst n. apply Qmult_le_0_compat.
        - change 0 with (inject_Z 0). rewrite <- Zle_Qle. lia.
        - qdiv. lra. }
      clearbody n.
      assert (Hf : 0 <= (4 # 10) + membraneHealth st / 100) by (qdiv; lra).
      set (f := (4 # 10) + membraneHealth st / 100) in *. clearbody f.
      rewrite !(Qmult_comm _ f). apply scale_mono; [exact Hf |].
      unfold Qdiv. apply scale_mono; [exact Hn |].
      apply Qle_shift_inv_l; [lra |].
      rewrite Qmult_comm.
      apply Qle_shift_div_r; [lra |]. lra.
Qed.


(** ** The animation loop *)

Lemma animation_frame_fields (timestamp : Q) (l : Loop) (s : RandomSource) :
  let dt := (timestamp - last_or (lastTimeRef l) timestamp) / 1000 in
  let l' := fst (animation_frame timestamp l s) in
  sim l' = with_params
             (fst (step dt (with_params (sim l) (captured_params l)) s))
             (params (sim l))
  /\ capturedPoreSize l' = capturedPoreSize l
  /\ lastTimeRef l' = Some timestamp.
Proof.
  cbn zeta. unfold animation_frame, bind, ret.
  destruct (step _ _ s) as [st' s']. cbn. repeat split.
Qed.

(** X16: the first frame after the loop effect has run measures dt = 0:
    it leaves elapsedTime as it was, and a membraneHealth in [0, 100] too,
    and records its timestamp in lastTimeRef; any later frame advances
    elapsedTime by (timestamp - previous timestamp) / 1000.  Pausing and
    resuming re-runs the effect, whose cleanup clears lastTimeRef, so the
    time spent paused is not counted: after pause, resume and one frame
    elapsedTime is what it was before the pause. *)
Theorem first_frame_has_dt_zero (timestamp : Q) (l : Loop)
        (s s1 s2 s3 : RandomSource) :
  let paused := fst (user_action ToggleRunning l s1) in
  let resumed := fst (user_action ToggleRunning paused s2) in
  let after := fst (animation_frame timestamp resumed s3) in
  (lastTimeRef l = None ->
   let l' := fst (animation_frame timestamp l s) in
   time (sim l') == time (sim l)
   /\ lastTimeRef l' = Some timestamp
   /\ (0 <= membraneHealth (sim l) -> membraneHealth (sim l) <= 100 ->
       membraneHealth (sim l') == membraneHealth (sim l)))
  /\ (forall t, lastTimeRef l = Some t -> ~ t == 0 ->
      time (sim (fst (animation_frame timestamp l s)))
      == time (sim l) + (timestamp - t) / 1000)
  /\ lastTimeRef paused = None
  /\ lastTimeRef resumed = None
  /\ isRunning (sim resumed) = isRunning (sim l)
  /\ time (sim after) == time (sim l)
  /\ lastTimeRef after = Some timestamp.
Proof.
  intros paused resumed after.
  assert (F : forall (l0 : Loop) (s0 : RandomSource),
             lastTimeRef l0 = None ->
             time (sim (fst (animation_frame timestamp l0 s0)))
             == time (sim l0)
             /\ lastTimeRef (fst (animation_frame timestamp l0 s0))
                = Some timestamp
             /\ (0 <= membraneHealth (sim l0) ->
                 membraneHealth (sim l0) <= 100 ->
                 membraneHealth (sim (fst (animation_frame timestamp l0 s0)))
                 == membraneHealth (sim l0))).
  { intros l0 s0 H0.
    destruct (animation_frame_fields timestamp l0 s0) as (E1 & _ & E3).
    rewrite E1, E3. cbn [with_params time membraneHealth].
    rewrite step_time, step_membraneHealth.
    cbn [with_params time membraneHealth params captured_params pressure
         feedConcentration].
    rewrite H0. cbn [last_or].
    split; [qdiv; lra |]. split; [reflexivity |].
    intros Ha Hb. unfold step_health.
    rewrite clamp_inside; qdiv; lra. }
  assert (T : forall (l0 : Loop) (s0 : RandomSource),
             let l1 := fst (user_action ToggleRunning l0 s0) in
             lastTimeRef l1 = None
             /\ isRunning (sim l1) = negb (isRunning (sim l0))
             /\ time (sim l1) = time (sim l0)).
  { intros l0 s0. cbn zeta. unfold user_action, bind. cbn [dispatch ret].
    assert (Hc : loop_deps_changed (sim l0)
                   {| params := params (sim l0);
                      isRunning := negb (isRunning (sim l0));
                      particles := particles (sim l0);
                      time := time (sim l0);
                      membraneHealth := membraneHealth (sim l0) |} = true).
    { unfold loop_deps_changed. cbn.
      destruct (isRunning (sim l0)); reflexivity. }
    rewrite Hc. cbn. repeat split. }
  destruct (T l s1) as (P1 & P2 & P3). fold paused in P1, P2, P3.
  destruct (T paused s2) as (R1 & R2 & R3). fold resumed in R1, R2, R3.
  destruct (F resumed s3 R1) as (A1 & A2 & _). fold after in A1, A2.
  split; [intro H0; apply (F l s H0) |]. split.
  - intros t Ht Hz.
    destruct (animation_frame_fields timestamp l s) as (E1 & _ & _).
    rewrite E1. cbn [with_params time]. rewrite step_time.
    cbn [with_params time]. rewrite Ht. cbn [last_or].
    assert (Ez : Qeq_bool t 0 = false).
    { destruct (Qeq_bool t 0) eqn:E; [| reflexivity].
      apply Qeq_bool_iff in E. contradiction. }
    rewrite Ez. reflexivity.
  - split; [exact P1 |]. split; [exact R1 |].
    split; [rewrite R2, P2; apply negb_involutive |].
    split; [rewrite A1, R3, P3; reflexivity | exact A2].
Qed.

Lemma set_watched_controls (old v : Q) (st : SimulationState)
      (s : RandomSource) :
  params (fst (set_watched old v st s)) = params st
  /\ isRunning (fst (set_watched old v st s)) = isRunning st.
Proof.
  unfold set_watched. destruct (Qeq_bool old v); [split; reflexivity |].
  unfold regenerate, bind, ret. destruct (createParticles _ _ s).
  split; reflexivity.
Qed.

Lemma loop_deps_same (st st' : SimulationState) :
  isRunning st' = isRunning st ->
  pressure (params st') = pressure (params st) ->
  stirRate (params st') = stirRate (params st) ->
  feedConcentration (params st') = feedConcentration (params st) ->
  loop_deps_changed st st' = false.
Proof.
  unfold loop_deps_changed. intros -> -> -> ->.
  rewrite Bool.eqb_reflx, !Qeq_bool_refl. reflexivity.
Qed.

(** A frame of a loop whose callback holds the current poreSize is the
    step of [dispatch]. *)
Lemma animation_frame_in_sync (timestamp : Q) (l : Loop) (s : RandomSource) :
  capturedPoreSize l = poreSize (params (sim l)) ->
  sim (fst (animation_frame timestamp l s))
  = fst (step ((timestamp - last_or (lastTimeRef l) timestamp) / 1000)
              (sim l) s).
Proof.
  intro H. destruct (animation_frame_fields timestamp l s) as (E & _ & _).
  rewrite E. clear E.
  assert (Ep : captured_params l = params (sim l)).
  { unfold captured_params. rewrite H. destruct (params (sim l)). reflexivity. }
  rewrite Ep.
  assert (Ew : with_params (sim l) (params (sim l)) = sim l)
    by (destruct (sim l); reflexivity).
  rewrite Ew.
  set (dt := (timestamp - _) / 1000).
  pose proof (step_params dt (sim l) s) as P.
  destruct (fst (step dt (sim l) s)) as [pr r ps t h]. cbn in *.
  unfold with_params. cbn. congruence.
Qed.

(** X17: after the pore size slider is moved to v the controls hold
    poreSize = v, but the running frame callback still sieves with the pore
    size it closed over: in the next frame a particle passes only if its
    size is below that earlier pore size and is retained only if its size
    is at least that earlier pore size, whatever v is.  The callback takes
    up v once a dependency of the loop effect changes, for instance when
    the simulation is paused or resumed. *)
Theorem frame_sieves_by_captured_poreSize (v timestamp : Q) (l : Loop)
        (s1 s2 s3 : RandomSource) :
  let l1 := fst (user_action (SetPoreSize v) l s1) in
  let l2 := fst (animation_frame timestamp l1 s2) in
  poreSize (params (sim l1)) = v
  /\ poreSize (params (sim l2)) = v
  /\ capturedPoreSize l2 = capturedPoreSize l
  /\ Forall2 (fun p p' =>
                (region p' = permeate -> region p <> permeate ->
                 size p < capturedPoreSize l)
                /\ (region p' = retentate -> region p <> retentate ->
                    capturedPoreSize l <= size p))
             (particles (sim l1)) (particles (sim l2))
  /\ capturedPoreSize (fst (user_action ToggleRunning l1 s3)) = v.
Proof.
  intros l1 l2.
  assert (A : poreSize (params (sim l1)) = v
              /\ capturedPoreSize l1 = capturedPoreSize l).
  { subst l1. unfold user_action, bind. cbn [dispatch].
    set (st0 := with_params (sim l) _).
    destruct (set_watched_controls (poreSize (params (sim l))) v st0 s1)
      as [Ep Er].
    destruct (set_watched _ v st0 s1) as [st' s'] eqn:Es. cbn [fst] in *.
    rewrite loop_deps_same; [| rewrite ?Er, ?Ep; reflexivity ..].
    cbn. rewrite Ep. split; reflexivity. }
  destruct A as [A1 A2].
  destruct (animation_frame_fields timestamp l1 s2) as (E1 & E2 & _).
  fold l2 in E1, E2.
  split; [exact A1 |]. split; [rewrite E1; exact A1 |].
  split; [congruence |]. split.
  - rewrite E1. cbn [with_params particles].
    rewrite <- A2.
    change (capturedPoreSize l1)
      with (poreSize (params (with_params (sim l1) (captured_params l1)))).
    change (particles (sim l1))
      with (particles (with_params (sim l1) (captured_params l1))) at 1.
    rewrite step_particles. apply mapM_Forall2.
    intros a s0. apply step_particle_sieve.
  - unfold user_action, bind. cbn [dispatch ret].
    assert (Hc : loop_deps_changed (sim l1)
                   {| params := params (sim l1);
                      isRunning := negb (isRunning (sim l1));
                      particles := particles (sim l1);
                      time := time (sim l1);
                      membraneHealth := membraneHealth (sim l1) |} = true).
    { unfold loop_deps_changed. cbn. destruct (isRunning (sim l1)); reflexivity. }
    rewrite Hc. cbn. exact A1.
Qed.

(** ** Membrane drawing *)



(** ** Keyboard controls *)

Lemma tab_iter (total n i : nat) :
  (i < total)%nat ->
  Nat.iter n (fun j => ((j + 1) mod total)%nat) i = ((i + n) mod total)%nat.
Proof.
  intro Hi. induction n as [| n IH].
  - cbn. rewrite Nat.add_0_r. symmetry. apply Nat.mod_small. exact Hi.
  - rewrite Nat.iter_succ, IH.
    rewrite Nat.Div0.add_mod_idemp_l. f_equal. lia.
Qed.

Lemma handleKeyDown_tab (controlRefs : list bool) (e : KeyboardEvent)
      (running : bool) (prev : nat) :
  isTyping e = false -> code e <> "Space"%string -> key e = "Tab"%string ->
  controlRefs <> [] ->
  handleKeyDown controlRefs e running prev
  = mkKeyOutcome running ((prev + 1) mod length controlRefs)%nat true
      (if nth ((prev + 1) mod length controlRefs)%nat controlRefs false
       then Some ((prev + 1) mod length controlRefs)%nat else None).
Proof.
  intros Ht Hc Hk Hn. unfold handleKeyDown. rewrite Ht.
  apply String.eqb_neq in Hc. rewrite Hc.
  rewrite Hk, String.eqb_refl.
  destruct controlRefs as [| b l]; [now elim Hn |]. reflexivity.
Qed.

(** X20: a Tab key press outside a text input, with at least one slider
    registered, moves the active control to the next slider, wrapping after
    the last one: the new index is below the number of sliders, focus goes
    to that slider when its element is mounted, the run flag is untouched,
    and as many presses as there are sliders bring an index in range back
    to where it was.  A key press whose target is an INPUT or TEXTAREA
    element changes nothing and is not prevented. *)
Theorem handleKeyDown_tab_cycle (controlRefs : list bool) (e : KeyboardEvent)
        (running : bool) (prev : nat) :
  isTyping e = false -> code e <> "Space"%string -> key e = "Tab"%string ->
  controlRefs <> [] ->
  let press := fun j => outIndex (handleKeyDown controlRefs e running j) in
  let out := handleKeyDown controlRefs e running prev in
  (press prev < length controlRefs)%nat
  /\ outRunning out = running
  /\ defaultPrevented out = true
  /\ (nth (press prev) controlRefs false = true ->
      focused out = Some (press prev))
  /\ ((prev < length controlRefs)%nat ->
      Nat.iter (length controlRefs) press prev = prev)
  /\ (forall e' r i, isTyping e' = true ->
        handleKeyDown controlRefs e' r i = mkKeyOutcome r i false None).
Proof.
  intros Ht Hc Hk Hn press out.
  assert (Hlen : length controlRefs <> 0%nat)
    by (destruct controlRefs; [now elim Hn | discriminate]).
  assert (Ep : forall j, press j = ((j + 1) mod length controlRefs)%nat).
  { intro j. subst press. cbv beta.
    rewrite (handleKeyDown_tab controlRefs e running j Ht Hc Hk Hn).
    reflexivity. }
  subst out. rewrite (handleKeyDown_tab controlRefs e running prev Ht Hc Hk Hn).
  cbn [outRunning outIndex defaultPrevented focused].
  split; [rewrite Ep; apply Nat.mod_upper_bound; exact Hlen |].
  split; [reflexivity |]. split; [reflexivity |]. split; [| split].
  - rewrite Ep. intros ->. reflexivity.
  - intro Hi.
    assert (Ei : forall n,
               Nat.iter n press prev
               = Nat.iter n (fun j => ((j + 1) mod length controlRefs)%nat)
                          prev).
    { induction n as [| n IH]; [reflexivity |].
      rewrite !Nat.iter_succ, IH. apply Ep. }
    rewrite Ei, (tab_iter _ _ _ Hi).
    replace (prev + length controlRefs)%nat
      with (prev + 1 * length controlRefs)%nat by lia.
    rewrite Nat.Div0.mod_add. apply Nat.mod_small. exact Hi.
  - intros e' r i He. unfold handleKeyDown. rewrite He. reflexivity.
Qed.


(** ** Sides of the membrane across all actions *)

Lemma createParticles_side_ok (c m : Q) (s : RandomSource) :
  valid_source s -> VESSEL_X + 80 <= MEMBRANE_X -> 80 <= VESSEL_H ->
  Forall side_ok (fst (createParticles c m s)).
Proof.
  intros Hs Hx Hy. unfold createParticles.
  eapply Forall2_Forall_r with (l := seq 0 _).
  eapply Forall2_impl;
    [| apply (mapM_pointwise (createParticle m)
                (createParticle_valid m) _ s Hs)].
  intros i p (s' & Hs' & ->).
  apply (createParticle_fresh m i s' Hs' Hx Hy).
Qed.

Lemma backwash_side_ok (ps : list Particle) :
  Forall side_ok ps -> Forall side_ok (map backwash_particle ps).
Proof.
  induction 1 as [| p ps Hp _ IH]; [constructor |].
  cbn [map]. constructor; [| exact IH].
  unfold side_ok in *. rewrite backwash_particle_region.
  unfold backwash_particle.
  destruct (region p); cbn [region_eqb x vx]; try exact Hp. lra.
Qed.

Lemma set_watched_side_ok (old v : Q) (st : SimulationState)
      (s : RandomSource) :
  valid_source s -> VESSEL_X + 80 <= MEMBRANE_X -> 80 <= VESSEL_H ->
  Forall side_ok (particles st) ->
  Forall side_ok (particles (fst (set_watched old v st s))).
Proof.
  intros Hs Hx Hy Hall. unfold set_watched.
  destruct (Qeq_bool old v); [exact Hall |].
  unfold regenerate, bind, ret.
  pose proof (createParticles_side_ok (feedConcentration (params st))
                (meanSoluteSize (params st)) s Hs Hx Hy) as H.
  destruct (createParticles _ _ s). exact H.
Qed.

(** X21: in a vessel with VESSEL_X + 80 <= MEMBRANE_X,
    MEMBRANE_X + 16 <= VESSEL_X + VESSEL_W - 20 and VESSEL_H >= 80, with
    draws in [0, 1), every action of the component (a frame with dt >= 0, a
    slider change with pressure kept >= 0, pause or resume, reset,
    backwash) keeps the pressure non-negative and keeps every particle on
    the side of the membrane that its region names. *)
Theorem dispatch_keeps_sides (a : Action) (st : SimulationState)
        (s : RandomSource) :
  VESSEL_X + 80 <= MEMBRANE_X -> MEMBRANE_X + 16 <= permeateRightLimit ->
  80 <= VESSEL_H ->
  valid_source s -> action_ok a ->
  0 <= pressure (params st) ->
  Forall side_ok (particles st) ->
  let st' := fst (dispatch a st s) in
  0 <= pressure (params st') /\ Forall side_ok (particles st').
Proof.
  intros Gx Gp Gh Hs Ha Hp Hall st'. subst st'.
  assert (G : geometry_ok) by (split; [lra | exact Gp]).
  destruct a; cbn [dispatch action_ok] in *.
  - destruct (isRunning st); [| split; assumption].
    rewrite step_params. split; [exact Hp |].
    apply step_side_ok_all; assumption.
  - cbn. split; assumption.
  - destruct (set_watched_controls (poreSize (params st)) v
                (with_params st
                   (mkParams (pressure (params st)) v
                      (feedConcentration (params st))
                      (meanSoluteSize (params st)) (stirRate (params st))))
                s) as [Ep _].
    rewrite Ep. split; [exact Hp |].
    apply set_watched_side_ok; assumption.
  - destruct (set_watched_controls (meanSoluteSize (params st)) v
                (with_params st
                   (mkParams (pressure (params st)) (poreSize (params st))
                      (feedConcentration (params st)) v
                      (stirRate (params st))))
                s) as [Ep _].
    rewrite Ep. split; [exact Hp |].
    apply set_watched_side_ok; assumption.
  - destruct (set_watched_controls (feedConcentration (params st)) v
                (with_params st
                   (mkParams (pressure (params st)) (poreSize (params st)) v
                      (meanSoluteSize (params st)) (stirRate (params st))))
                s) as [Ep _].
    rewrite Ep. split; [exact Hp |].
    apply set_watched_side_ok; assumption.
  - cbn. split; assumption.
  - cbn. split; assumption.
  - unfold handleResetSystem, bind, ret.
    pose proof (createParticles_side_ok (feedConcentration (params st))
                  (meanSoluteSize (params st)) s Hs Gx Gh) as H.
    destruct (createParticles _ _ s). cbn. split; assumption.
  - cbn. split; [exact Hp |]. apply backwash_side_ok. exact Hall.
Qed.


End Engine.

(** * The engine at the sample geometry *)

(** Closes a comparison or equation between evaluated rationals. *)
Ltac qeval := vm_compute; first [reflexivity | discriminate].

Lemma zero_source_valid : valid_source zero_source.
Proof. intro n. split; qeval. Qed.

Lemma half_source_valid : valid_source half_source.
Proof. intro n. split; qeval. Qed.


Lemma step_health_decay_witness :
  let h' := membraneHealth
              (fst (step sample_VESSEL_X sample_VESSEL_Y sample_VESSEL_W
                         sample_VESSEL_H sample_MEMBRANE_X (1 # 60)
                         (sample_state [feed_idle] 0 100) zero_source)) in
  h' = clamp (100 - (40 / 2200 + 300 / 9000) * (1 # 60)) 0 100
  /\ h' <= 100 /\ 0 <= h' /\ h' <= 100.
Proof.
  apply (step_health_decay sample_VESSEL_X sample_VESSEL_Y sample_VESSEL_W
           sample_VESSEL_H sample_MEMBRANE_X (1 # 60)
           (sample_state [feed_idle] 0 100) zero_source); qeval.
Defined.

Lemma flux_value_witness :
  rounded_2dp
    (flux (sample_state [permeate_one; feed_idle; permeate_one] (1 # 2) 80))
    (flux_formula 2 40 (1 # 2) 80).
Proof.
  destruct (flux_value
              (sample_state [permeate_one; feed_idle; permeate_one] (1 # 2) 80)
              ltac:(qeval) ltac:(qeval) ltac:(qeval)) as (H & _).
  exact H.
Defined.

Lemma flux_bound_witness :
  0 <= flux (sample_state [permeate_one] 0 100)
  /\ rawFlux (set_health (sample_state [permeate_one] 0 100) 0)
     == (2 # 7) * rawFlux (set_health (sample_state [permeate_one] 0 100) 100).
Proof.
  destruct (flux_bound (sample_state [permeate_one] 0 100)
              ltac:(qeval) ltac:(qeval) ltac:(qeval))
    as (H1 & _ & _ & _ & H2 & _).
  split; [exact H1 | exact H2].
Defined.

(** C5, refuted as stated: with one permeate particle, pressure 40 and
    elapsedTime 0 the flux is 0.32 at membraneHealth = 0 and 1.12 at
    membraneHealth = 100, and 40% of 1.12 is 0.448. *)
Lemma flux_health_0_not_40pct_of_health_100 :
  flux (set_health (sample_state [permeate_one] 0 100) 0) == 32 # 100
  /\ flux (set_health (sample_state [permeate_one] 0 100) 100) == 112 # 100
  /\ ~ flux (set_health (sample_state [permeate_one] 0 100) 0)
       == (4 # 10)
          * flux (set_health (sample_state [permeate_one] 0 100) 100).
Proof. repeat split; qeval. Qed.

(** C6, refuted as stated: with dt = 0 and stirRate 40 the stirring term,
    which is not scaled by dt, moves an idle feed particle from y = 100 to
    y = 100 - 12/7; and with the stirrer off a feed particle with vx = 2
    still advances by its velocity, from x = 331 to the membrane, where it
    is turned into a permeate particle. *)
Lemma step_dt_zero_changes_state :
  ~ State_eqv
      (fst (step sample_VESSEL_X sample_VESSEL_Y sample_VESSEL_W
                 sample_VESSEL_H sample_MEMBRANE_X 0
                 (sample_state [feed_idle] 0 100) zero_source))
      (sample_state [feed_idle] 0 100)
  /\ ~ State_eqv
        (fst (step sample_VESSEL_X sample_VESSEL_Y sample_VESSEL_W
                   sample_VESSEL_H sample_MEMBRANE_X 0
                   (still_state [feed_near_membrane] 0 100) half_source))
        (still_state [feed_near_membrane] 0 100).
Proof.
  split; intros [H _]; vm_compute in H; inversion H as [| p q ps qs Hp Hps];
    subst; destruct Hp as (_ & Hx & Hy & _ & _ & _ & Hr).
  - vm_compute in Hy. discriminate Hy.
  - discriminate Hr.
Qed.

Lemma step_dt_zero_witness :
  let st := still_state [feed_idle; retentate_at_wall; permeate_one] 3 80 in
  let st' := fst (step sample_VESSEL_X sample_VESSEL_Y sample_VESSEL_W
                       sample_VESSEL_H sample_MEMBRANE_X 0 st half_source) in
  time st' == 3 /\ membraneHealth st' == 80
  /\ Forall2 (fun p p' => Particle_eqv p' p) (particles st) (particles st').
Proof.
  intros st st'.
  destruct (step_dt_zero sample_VESSEL_X sample_VESSEL_Y sample_VESSEL_W
              sample_VESSEL_H sample_MEMBRANE_X st half_source
              ltac:(qeval) ltac:(qeval)) as (Ht & Hh & Hps).
  split; [exact Ht |]. split; [exact Hh |].
  fold st' in Hps. change (particles st)
    with [feed_idle; retentate_at_wall; permeate_one] in *.
  remember (particles st') as out eqn:Eout. clear Eout.
  repeat match goal with
  | H : Forall2 _ (_ :: _) _ |- _ =>
      inversion H as [| ? ? ? ? [_ [_ ?]] ?]; subst; clear H
  | H : Forall2 _ [] _ |- _ => inversion H; subst; clear H
  end.
  repeat (apply Forall2_cons;
          [match goal with
           | H : _ -> _ -> Particle_eqv ?q ?p |- Particle_eqv ?q ?p =>
               apply H; [qeval | unfold at_rest; cbn; repeat split; qeval]
           end |]).
  apply Forall2_nil.
Defined.

Lemma population_conservation_witness :
  let st := sample_state [permeate_at_exit; feed_idle] 0 100 in
  let st' := fst (step sample_VESSEL_X sample_VESSEL_Y sample_VESSEL_W
                       sample_VESSEL_H sample_MEMBRANE_X (1 # 60) st
                       half_source) in
  length (particles st') = 2%nat
  /\ (exists p' rest, particles st' = p' :: rest
                      /\ region p' = feed /\ vx p' = 0 /\ vy p' = 0
                      /\ id p' = id permeate_at_exit
                      /\ size p' = size permeate_at_exit)
  /\ regenerating ResetSystem = true.
Proof.
  intros st st'.
  destruct (population_conservation sample_VESSEL_X sample_VESSEL_Y
              sample_VESSEL_W sample_VESSEL_H sample_MEMBRANE_X (1 # 60) st
              half_source) as (Hlen & Hrec & Hreg).
  split; [exact Hlen |]. split.
  - specialize (Hrec half_source_valid). fold st' in Hrec.
    change (particles st) with [permeate_at_exit; feed_idle] in Hrec.
    remember (particles st') as out eqn:Eout. clear Eout.
    inversion Hrec as [| p p' l l' Hp Hl]; subst.
    destruct (Hp eq_refl ltac:(qeval))
      as (r & r' & _ & _ & H1 & H2 & H3 & _ & _ & _ & _ & H4 & H5).
    exists p', l'. repeat split; assumption.
  - apply (Hreg ResetSystem zero_source). vm_compute. discriminate.
Defined.

Lemma retentate_drift_mean_witness :
  midpoint_mean 4 (fun r => retentate_dx r (1 # 60)) == 5 * (1 # 60)
  /\ 0 < midpoint_mean 4 (fun r => retentate_dx r (1 # 60)).
Proof.
  destruct (retentate_drift_mean (1 # 60) 4 ltac:(qeval) ltac:(lia))
    as (H1 & H2 & _).
  split; [exact H1 | exact H2].
Defined.

Lemma handleBackwash_leaves_hard_bounds_witness :
  exists p', In p' (particles
                      (handleBackwash (sample_state [retentate_at_wall] 0 50)))
             /\ x p' = x retentate_at_wall - 40
             /\ x p' < sample_VESSEL_X + 10
             /\ ~ (leftLimit sample_VESSEL_X <= x p'
                   /\ x p' <= rightLimit sample_VESSEL_X sample_VESSEL_W).
Proof.
  apply (handleBackwash_leaves_hard_bounds sample_VESSEL_X sample_VESSEL_W
           (sample_state [retentate_at_wall] 0 50) retentate_at_wall).
  - left. reflexivity.
  - reflexivity.
  - qeval.
Defined.

(** C2, at a failing input: a retentate particle on the upper vertical
    limit (y = VESSEL_Y + 20 = 70), one frame of dt = 1/60 with every draw
    equal to 0.  The stirring term is clamped back to the limit, then the
    retentate jitter, applied after that clamp, lowers y by 8 dt: the
    particle ends at y = 70 - 2/15, outside the vertical limits, while its x
    stays inside the hard bounds.  After a frame of dt = 3 (a frame that
    follows a stall of the host loop) it ends at y = 46, outside the vessel
    rectangle itself, which starts at VESSEL_Y = 50. *)
Theorem step_y_leaves_vertical_limits :
  let st := sample_state [retentate_at_top] 0 100 in
  let st' := fst (step sample_VESSEL_X sample_VESSEL_Y sample_VESSEL_W
                       sample_VESSEL_H sample_MEMBRANE_X (1 # 60) st
                       zero_source) in
  let st3 := fst (step sample_VESSEL_X sample_VESSEL_Y sample_VESSEL_W
                       sample_VESSEL_H sample_MEMBRANE_X 3 st
                       zero_source) in
  Forall (fun p => topLimit sample_VESSEL_Y <= y p
                   /\ y p <= bottomLimit sample_VESSEL_Y sample_VESSEL_H)
         (particles st)
  /\ (exists p', particles st' = [p']
                 /\ y p' == 70 - (2 # 15)
                 /\ y p' < topLimit sample_VESSEL_Y
                 /\ leftLimit sample_VESSEL_X <= x p'
                 /\ x p' <= rightLimit sample_VESSEL_X sample_VESSEL_W)
  /\ (exists p', particles st3 = [p']
                 /\ y p' == 46
                 /\ y p' < sample_VESSEL_Y).
Proof.
  intros st st' st3. split; [| split].
  - repeat constructor; qeval.
  - eexists. split; [vm_compute; reflexivity |].
    repeat split; qeval.
  - eexists. split; [vm_compute; reflexivity |].
    repeat split; qeval.
Qed.

(** * Instances of the further properties *)

Lemma createParticles_fresh_witness :
  NoDup (map id (fst (createParticles sample_VESSEL_X sample_VESSEL_Y
                        sample_VESSEL_H sample_MEMBRANE_X 300 10
                        half_source)))
  /\ Forall (side_ok sample_VESSEL_X sample_VESSEL_W sample_MEMBRANE_X)
            (fst (createParticles sample_VESSEL_X sample_VESSEL_Y
                    sample_VESSEL_H sample_MEMBRANE_X 300 10 half_source)).
Proof.
  destruct (createParticles_fresh sample_VESSEL_X sample_VESSEL_Y
              sample_VESSEL_W sample_VESSEL_H sample_MEMBRANE_X 300 10
              half_source half_source_valid ltac:(qeval) ltac:(qeval))
    as (_ & Hnd & Hall).
  split; [exact Hnd |].
  revert Hall. apply Forall_impl. intros p Hp. apply Hp.
Defined.

Lemma createParticle_size_witness :
  size (fst (createParticle sample_VESSEL_X sample_VESSEL_Y sample_VESSEL_H
               sample_MEMBRANE_X 10 0 zero_source)) == 7.
Proof.
  destruct (createParticle_size sample_VESSEL_X sample_VESSEL_Y
              sample_VESSEL_H sample_MEMBRANE_X 10 0 zero_source
              zero_source_valid ltac:(qeval) ltac:(qeval))
    as (_ & _ & _ & H).
  rewrite (H ltac:(qeval)). qeval.
Defined.

Lemma step_keeps_sides_witness :
  Forall (side_ok sample_VESSEL_X sample_VESSEL_W sample_MEMBRANE_X)
    (particles
       (fst (step sample_VESSEL_X sample_VESSEL_Y sample_VESSEL_W
                  sample_VESSEL_H sample_MEMBRANE_X (1 # 60)
                  (sample_state
                     [feed_near_membrane; retentate_at_wall; permeate_at_exit]
                     0 100)
                  half_source))).
Proof.
  apply (step_keeps_sides sample_VESSEL_X sample_VESSEL_Y sample_VESSEL_W
           sample_VESSEL_H sample_MEMBRANE_X).
  - split; qeval.
  - qeval.
  - qeval.
  - exact half_source_valid.
  - repeat constructor; qeval.
Defined.

Lemma step_position_bounds_witness :
  Forall2 (fun p p' =>
             (leftLimit sample_VESSEL_X <= x p'
              /\ x p' <= rightLimit sample_VESSEL_X sample_VESSEL_W)
             /\ (region p = feed ->
                 topLimit sample_VESSEL_Y <= y p'
                 /\ y p' <= bottomLimit sample_VESSEL_Y sample_VESSEL_H))
    [feed_near_membrane; retentate_at_top]
    (particles
       (fst (step sample_VESSEL_X sample_VESSEL_Y sample_VESSEL_W
                  sample_VESSEL_H sample_MEMBRANE_X (1 # 60)
                  (sample_state [feed_near_membrane; retentate_at_top] 0 100)
                  zero_source))).
Proof.
  apply (step_position_bounds sample_VESSEL_X sample_VESSEL_Y sample_VESSEL_W
           sample_VESSEL_H sample_MEMBRANE_X (1 # 60)
           (sample_state [feed_near_membrane; retentate_at_top] 0 100)
           zero_source); qeval.
Defined.

Lemma handleBackwash_restores_witness :
  membraneHealth (handleBackwash (sample_state [permeate_one] 0 50)) == 75
  /\ flux (sample_state [permeate_one] 0 50)
     <= flux (handleBackwash (sample_state [permeate_one] 0 50)).
Proof.
  destruct (handleBackwash_restores (sample_state [permeate_one] 0 50)
              ltac:(qeval) ltac:(qeval) ltac:(qeval) ltac:(qeval))
    as (_ & _ & H & _ & Hf & _).
  split; [rewrite (H ltac:(qeval)); qeval | exact Hf].
Defined.

Lemma health_stays_in_range_witness :
  let h' := membraneHealth
              (fst (dispatch sample_VESSEL_X sample_VESSEL_Y sample_VESSEL_W
                             sample_VESSEL_H sample_MEMBRANE_X (Frame 3600)
                             (sample_state [feed_idle] 0 90) zero_source)) in
  0 <= h' /\ h' <= 100.
Proof.
  destruct (health_stays_in_range sample_VESSEL_X sample_VESSEL_Y
              sample_VESSEL_W sample_VESSEL_H sample_MEMBRANE_X (Frame 3600)
              (sample_state [feed_idle] 0 90) zero_source
              ltac:(qeval) ltac:(qeval)) as (H0 & H1 & _).
  split; assumption.
Defined.

Lemma flux_monotone_witness :
  flux (set_health (sample_state [permeate_one] 1 50) 20)
  <= flux (set_health (sample_state [permeate_one] 1 50) 90)
  /\ flux (set_time (sample_state [permeate_one] 1 50) 10)
     <= flux (set_time (sample_state [permeate_one] 1 50) 2).
Proof.
  apply (flux_monotone (sample_state [permeate_one] 1 50) 20 90 2 10); qeval.
Defined.


Lemma first_frame_has_dt_zero_witness :
  time (sim (fst (animation_frame sample_VESSEL_X sample_VESSEL_Y
                    sample_VESSEL_W sample_VESSEL_H sample_MEMBRANE_X 1016
                    fresh_loop zero_source))) == 0
  /\ time (sim (fst (animation_frame sample_VESSEL_X sample_VESSEL_Y
                       sample_VESSEL_W sample_VESSEL_H sample_MEMBRANE_X 1016
                       sample_loop zero_source))) == 16 / 1000.
Proof.
  destruct (first_frame_has_dt_zero sample_VESSEL_X sample_VESSEL_Y
              sample_VESSEL_W sample_VESSEL_H sample_MEMBRANE_X 1016
              fresh_loop zero_source zero_source zero_source zero_source)
    as (H & _).
  destruct (first_frame_has_dt_zero sample_VESSEL_X sample_VESSEL_Y
              sample_VESSEL_W sample_VESSEL_H sample_MEMBRANE_X 1016
              sample_loop zero_source zero_source zero_source zero_source)
    as (_ & H' & _).
  split.
  - destruct (H eq_refl) as (Ht & _). rewrite Ht. qeval.
  - rewrite (H' 1000 eq_refl ltac:(intro E; discriminate E)). qeval.
Defined.

(** With mean solute size 8, the pore size slider moved from 10 to 6 and a
    frame 199 s after the previous one, every particle of the regenerated
    population has size 8, reaches the membrane and passes it, although the
    controls show a pore size of 6. *)
Lemma frame_sieves_by_captured_poreSize_witness :
  let l1 := fst (user_action sample_VESSEL_X sample_VESSEL_Y sample_VESSEL_W
                   sample_VESSEL_H sample_MEMBRANE_X (SetPoreSize 6)
                   sample_loop half_source) in
  let l2 := fst (animation_frame sample_VESSEL_X sample_VESSEL_Y
                   sample_VESSEL_W sample_VESSEL_H sample_MEMBRANE_X 200000
                   l1 half_source) in
  poreSize (params (sim l2)) = 6
  /\ capturedPoreSize l2 = 10
  /\ length (particles (sim l2)) = 39%nat
  /\ forallb (fun p => region_eqb (region p) permeate
                       && Qeq_bool (size p) 8) (particles (sim l2)) = true.
Proof.
  intros l1 l2.
  destruct (frame_sieves_by_captured_poreSize sample_VESSEL_X sample_VESSEL_Y
              sample_VESSEL_W sample_VESSEL_H sample_MEMBRANE_X 6 200000
              sample_loop half_source half_source half_source)
    as (_ & H2 & H3 & _).
  split; [exact H2 |]. split; [exact H3 |].
  split; vm_compute; reflexivity.
Defined.

Lemma handleKeyDown_tab_cycle_witness :
  outIndex (handleKeyDown five_sliders tab_on_body true 4) = 0%nat
  /\ focused (handleKeyDown five_sliders tab_on_body true 4) = Some 0%nat
  /\ Nat.iter 5
       (fun j => outIndex (handleKeyDown five_sliders tab_on_body true j))
       4%nat = 4%nat.
Proof.
  destruct (handleKeyDown_tab_cycle five_sliders tab_on_body true 4
              eq_refl ltac:(discriminate) eq_refl ltac:(discriminate))
    as (_ & _ & _ & Hf & Hc & _).
  split; [reflexivity |]. split; [apply Hf; reflexivity |].
  apply Hc. cbn. lia.
Defined.


Lemma dispatch_keeps_sides_witness :
  Forall (side_ok sample_VESSEL_X sample_VESSEL_W sample_MEMBRANE_X)
    (particles
       (fst (dispatch sample_VESSEL_X sample_VESSEL_Y sample_VESSEL_W
                      sample_VESSEL_H sample_MEMBRANE_X Backwash
                      (sample_state [retentate_at_wall; permeate_one] 0 50)
                      zero_source))).
Proof.
  apply (dispatch_keeps_sides sample_VESSEL_X sample_VESSEL_Y sample_VESSEL_W
           sample_VESSEL_H sample_MEMBRANE_X Backwash
           (sample_state [retentate_at_wall; permeate_one] 0 50) zero_source);
    [qeval | qeval | qeval | exact zero_source_valid | exact I | qeval
    | repeat constructor; qeval].
Defined.
